(** * Tic-tac-toe chat bot: the game core of [tic_tac_toe_tg_bot.py]

    The board is a Python list of three lists of three one-character
    strings.  Indexing a list out of range raises [IndexError], converting
    a non-digit to [int] raises [ValueError]; both are kept as results of
    an error monad.  The handlers [start], [game], [end] and [stop] are
    written in state-passing style: they take the board stored under
    [user_data['keyboard_state']] and give back the board stored when they
    return, the messages they sent and the conversation state they
    return; [stop], which does not return, gives back what it did.  The
    number drawn by [random.choice] is an argument of [game], and the
    statements about [game] hold for every value of it.

    A [string] stands for a Python [str] whose characters have code points
    below 256, which covers every string the module builds itself.

    Boards are list objects that [deepcopy] copies and [game] updates in
    place.  Module [Store] keeps them in a store of shared objects and
    shows that every session owns its board and its rows, which is what
    the state-passing style relies on. *)

From Stdlib Require Import ZArith Ascii String.
From stdpp Require Import base decidable option list strings pretty gmap.

Open Scope string_scope.

(** ** Exceptions *)

Inductive exn := IndexError | ValueError.

Inductive result (A : Type) : Type :=
| Ok (a : A)
| Raise (e : exn).
Arguments Ok {A} a.
Arguments Raise {A} e.

#[global] Instance result_ret : MRet result := @Ok.
#[global] Instance result_bind : MBind result := λ A B f m,
  match m with Ok a => f a | Raise e => Raise e end.

(** [l[i]] and [l[i] = x] for a non-negative index. *)
Definition getitem {A} (l : list A) (i : nat) : result A :=
  match l !! i with Some x => Ok x | None => Raise IndexError end.

Definition setitem {A} (l : list A) (i : nat) (x : A) : result (list A) :=
  if decide (i < length l) then Ok (<[i:=x]> l) else Raise IndexError.

(** [all(f(x) for x in l)]: stops at the first false element, so the
    elements after it are not evaluated. *)
Fixpoint all_ {A} (f : A → result bool) (l : list A) : result bool :=
  match l with
  | [] => Ok true
  | x :: l' => b ← f x; if b : bool then all_ f l' else Ok false
  end.

(** [for x in l: if f(x): return True], giving [false] when the loop
    runs to its end. *)
Fixpoint any_ {A} (f : A → result bool) (l : list A) : result bool :=
  match l with
  | [] => Ok false
  | x :: l' => b ← f x; if b : bool then Ok true else any_ f l'
  end.

(** [[f(x) for x in l]] *)
Fixpoint comprehension {A B} (f : A → result B) (l : list A) : result (list B) :=
  match l with
  | [] => Ok []
  | x :: l' => y ← f x; ys ← comprehension f l'; Ok (y :: ys)
  end.

Definition range (n : nat) : list nat := seq 0 n.

(** ** Constants *)

Definition CONTINUE_GAME : Z := 0.
Definition FINISH_GAME : Z := 1.
(** [ConversationHandler.END] *)
Definition END : Z := (-1)%Z.

Definition FREE_SPACE : string := ".".
Definition CROSS : string := "X".
Definition ZERO : string := "O".

Abbreviation board := (list (list string)).

Definition DEFAULT_STATE : board :=
  (λ _, (λ _, FREE_SPACE) <$> range 3) <$> range 3.

(** [state[r][c]] *)
Definition getitem2 (state : board) (r c : nat) : result string :=
  row ← getitem state r; getitem row c.

(** [state[r][c] = v]: the row object [state[r]] is updated in place and
    stays the [r]-th item of [state]. *)
Definition setitem2 (state : board) (r c : nat) (v : string) : result board :=
  row ← getitem state r;
  row' ← setitem row c v;
  Ok (<[r:=row']> state).

(** ** [won] *)

Definition won (fields : board) (symbol : string) : result bool :=
  (* Lines check *)
  b ← any_ (λ row, all_ (λ cell, Ok (cell =? symbol)) row) fields;
  if b : bool then Ok true else
  (* Columns check *)
  b ← any_ (λ col,
         all_ (λ row, cell ← getitem2 fields row col; Ok (cell =? symbol))
              (range 3))
       (range 3);
  if b : bool then Ok true else
  (* Diagonals check *)
  d ← all_ (λ i, cell ← getitem2 fields i i; Ok (cell =? symbol)) (range 3);
  if d : bool then Ok true else
  d ← all_ (λ i, cell ← getitem2 fields i (2 - i); Ok (cell =? symbol)) (range 3);
  if d : bool then Ok true else
  Ok false.

(** ** Well-formed boards and their cells *)

Definition is_3x3 (state : board) : bool :=
  (length state =? 3)%nat && forallb (λ row, (length row =? 3)%nat) state.

(** The cell at [(r, c)], when there is one. *)
Definition cell_at (state : board) (p : nat * nat) : option string :=
  row ← state !! p.1; row !! p.2.

(** The eight lines of the game: three rows, three columns, the diagonal
    from the top left and the diagonal from the top right. *)
Definition canonical_lines : list (list (nat * nat)) :=
  [ [(0,0); (0,1); (0,2)]; [(1,0); (1,1); (1,2)]; [(2,0); (2,1); (2,2)];
    [(0,0); (1,0); (2,0)]; [(0,1); (1,1); (2,1)]; [(0,2); (1,2); (2,2)];
    [(0,0); (1,1); (2,2)]; [(0,2); (1,1); (2,0)] ]%nat.

(** All three cells of the line hold [mark]. *)
Definition line_complete (state : board) (mark : string) (l : list (nat * nat)) : Prop :=
  Forall (λ p, cell_at state p = Some mark) l.

Definition line_completeb (state : board) (mark : string) (l : list (nat * nat)) : bool :=
  forallb (λ p, match cell_at state p with Some x => x =? mark | None => false end) l.

Definition has_line (state : board) (mark : string) : bool :=
  existsb (line_completeb state mark) canonical_lines.

(** ** Messages and keyboards *)

Definition nl : string := String (ascii_of_nat 10) "".

Definition MSG_TURN : string :=
  "X (your) turn! Please, put X to the free place." +:+ nl +:+
  "To finish game please press '/stop'".
Definition MSG_OCCUPIED : string :=
  "This cell is already occupied! Please, choose another one.".
Definition MSG_YOU_WON : string :=
  "You won! To play again please press '/start'" +:+ nl +:+
  "To finish game please press '/stop'".
Definition MSG_AI_WON : string :=
  "AI won! To play again please press '/start'" +:+ nl +:+
  "To finish game please press '/stop'".
Definition MSG_DRAW : string :=
  "Draw! To play again please press '/start'" +:+ nl +:+
  "To finish game please press '/stop'".
Definition MSG_STOP : string := "Bot is stopping... Goodbye!".

Record InlineKeyboardButton := Button { text : string; callback_data : string }.

Abbreviation keyboard := (list (list InlineKeyboardButton)).

(** What a handler sends to the chat platform, in order. *)
Inductive action :=
| answer
| reply_text (msg : string) (reply_markup : option keyboard)
| edit_message_text (msg : string) (reply_markup : keyboard)
| application_stop.

(** [f'{r}{c}'] *)
Definition fmt_rc (r c : nat) : string := pretty r +:+ pretty c.

Definition generate_keyboard (state : board) : result keyboard :=
  comprehension (λ c,
    comprehension (λ r, x ← getitem2 state r c; Ok (Button x (fmt_rc r c)))
                  (range 3))
    (range 3).

(** ** [game] *)

(** [int(ch)] for a one-character string: a decimal digit gives its value,
    any other character of the first 256 raises [ValueError].  Python's
    [int] also converts the decimal digits of other scripts, which all lie
    above code point 255: a [string] cannot hold them, and nothing is
    stated here about callback data that do. *)
Definition int_ (ch : ascii) : result nat :=
  let n := nat_of_ascii ch in
  if decide (48 ≤ n ≤ 57)%nat then Ok (n - 48) else Raise ValueError.

(** [r, c = map(int, data)]: the characters are converted one by one and
    there must be exactly two of them. *)
Definition unpack_move (data : string) : result (nat * nat) :=
  match data with
  | String a (String b rest) =>
      r ← int_ a; c ← int_ b;
      match rest with
      | EmptyString => Ok (r, c)
      | String x _ => _ ← int_ x; Raise ValueError
      end
  | String a EmptyString => _ ← int_ a; Raise ValueError
  | EmptyString => Raise ValueError
  end.

(** [[(i, j) for i in range(3) for j in range(3) if state[i][j] == FREE_SPACE]] *)
Definition free_cells_of (state : board) : result (list (nat * nat)) :=
  rows ← comprehension (λ i,
            cs ← comprehension (λ j,
                    x ← getitem2 state i j;
                    Ok (if x =? FREE_SPACE then [(i, j)] else []))
                  (range 3);
            Ok (concat cs))
          (range 3);
  Ok (concat rows).

(** [random.choice(l)] is [l[k]] for a random [k] below [len(l)]; [rnd] is
    the number drawn by the generator, reduced to that range. *)
Definition choice {A} (rnd : nat) (l : list A) : result A :=
  getitem l (rnd mod length l).

(** Truth value of a list: non-empty. *)
Definition truthy {A} (l : list A) : bool :=
  match l with [] => false | _ => true end.

(** [data] is [query.data].  On a 3x3 board an exception can only be
    raised before the first write, so a raised exception leaves the board
    as it was. *)
Definition game (rnd : nat) (data : string) (state : board)
  : result (board * list action * Z) :=
  '(r, c) ← unpack_move data;
  (* Free cell check *)
  x ← getitem2 state r c;
  if negb (x =? FREE_SPACE) then
    Ok (state, [answer; reply_text MSG_OCCUPIED None], CONTINUE_GAME)
  else
  (* User turn *)
  state ← setitem2 state r c CROSS;
  (* User victory check *)
  w ← won state CROSS;
  if w : bool then
    Ok (state, [answer; reply_text MSG_YOU_WON None], FINISH_GAME)
  else
  (* AI turn (random cell) *)
  free_cells ← free_cells_of state;
  '(state, ai_won) ←
    (if truthy free_cells then
       '(ir, ic) ← choice rnd free_cells;
       state ← setitem2 state ir ic ZERO;
       (* AI victory check *)
       w ← won state ZERO;
       Ok (state, w)
     else Ok (state, false));
  if ai_won : bool then
    Ok (state, [answer; reply_text MSG_AI_WON None], FINISH_GAME)
  else
  (* Draw check *)
  if negb (truthy free_cells) then
    Ok (state, [answer; reply_text MSG_DRAW None], FINISH_GAME)
  else
  (* Updating the keyboard *)
  keyboard ← generate_keyboard state;
  Ok (state, [answer; edit_message_text MSG_TURN keyboard], CONTINUE_GAME).

(** ** The other handlers *)

(** The cells of [deepcopy(DEFAULT_STATE)].  That the copy is a new object
    with new rows is [Store.get_default_state]. *)
Definition get_default_state : board := DEFAULT_STATE.

(** [state] is what [user_data['keyboard_state']] held before the call,
    if anything; the three handlers overwrite it. *)
Definition start (state : option board) : result (option board * list action * Z) :=
  let state := get_default_state in
  keyboard ← generate_keyboard state;
  Ok (Some state, [reply_text MSG_TURN (Some keyboard)], CONTINUE_GAME).

Definition end_ (state : option board) : option board * list action * Z :=
  (Some get_default_state, [], END).

(** [stop] sends its message, stores a new board and awaits
    [application.stop()].  Called from a handler, that call does not
    return: stopping the application waits for the update in hand, and the
    update in hand is this very call.  So [return ConversationHandler.END]
    is never reached; [stop] gives the board it stored and what it did,
    and no conversation state. *)
Definition stop (state : option board) : option board * list action :=
  (Some get_default_state, [reply_text MSG_STOP None; application_stop]).

(** ** Outcomes and session phases of the specification *)

Inductive GameOutcome := ONGOING | PLAYER_WIN | OPPONENT_WIN | DRAW | ILLEGAL_MOVE.

(** The outcome a call of [game] reports is the message it sends: the
    five messages of [game] are different strings. *)
Definition outcome_of (acts : list action) : option GameOutcome :=
  match acts with
  | [answer; reply_text msg None] =>
      if msg =? MSG_OCCUPIED then Some ILLEGAL_MOVE
      else if msg =? MSG_YOU_WON then Some PLAYER_WIN
      else if msg =? MSG_AI_WON then Some OPPONENT_WIN
      else if msg =? MSG_DRAW then Some DRAW
      else None
  | [answer; edit_message_text msg _] =>
      if msg =? MSG_TURN then Some ONGOING else None
  | _ => None
  end.

Definition AWAITING_MOVE : Z := CONTINUE_GAME.
Definition TERMINAL : Z := FINISH_GAME.

(** ** Reading boards cell by cell *)

(** The board with [v] written at cell [p]. *)
Definition place (state : board) (p : nat * nat) (v : string) : board :=
  alter (λ row, <[p.2:=v]> row) p.1 state.

Definition in_range (p : nat * nat) : bool := (p.1 <? 3)%nat && (p.2 <? 3)%nat.

(** The nine coordinates, row by row. *)
Definition all_cells : list (nat * nat) :=
  [(0,0); (0,1); (0,2); (1,0); (1,1); (1,2); (2,0); (2,1); (2,2)]%nat.

Definition is_free (state : board) (p : nat * nat) : bool :=
  match cell_at state p with Some x => x =? FREE_SPACE | None => false end.

(** The EMPTY cells of a board, row by row. *)
Definition free_list (state : board) : list (nat * nat) :=
  List.filter (is_free state) all_cells.

(** The keyboard of a 3x3 board, read off cell by cell. *)
Definition button_at (state : board) (r c : nat) : InlineKeyboardButton :=
  Button (default "" (cell_at state (r, c))) (fmt_rc r c).

(** ** Boards of the scenarios *)

(** Two marks of the player in the first row, the third cell EMPTY. *)
Definition board_two_in_row : board :=
  [[CROSS; CROSS; FREE_SPACE];
   [ZERO; ZERO; FREE_SPACE];
   [FREE_SPACE; FREE_SPACE; FREE_SPACE]].

(** Eight cells taken, no line, the last cell EMPTY. *)
Definition board_last_cell : board :=
  [[CROSS; ZERO; CROSS];
   [CROSS; ZERO; ZERO];
   [ZERO; CROSS; FREE_SPACE]].

(** The centre is taken by the opponent. *)
Definition board_centre_taken : board :=
  [[CROSS; ZERO; FREE_SPACE];
   [FREE_SPACE; ZERO; FREE_SPACE];
   [FREE_SPACE; FREE_SPACE; CROSS]].


(** ** Counting marks *)

(** How many cells of the board hold [v]. *)
Definition count_cells (v : string) (state : board) : nat :=
  sum_list ((λ x, if x =? v then 1 else 0) <$> concat state).

Definition is_mark (x : string) : bool :=
  (x =? FREE_SPACE) || (x =? CROSS) || (x =? ZERO).

(** Every cell holds one of the three marks, and the player has made as
    many moves as the opponent: it is the player's turn. *)
Definition balanced (state : board) : bool :=
  forallb is_mark (concat state)
  && (count_cells CROSS state =? count_cells ZERO state)%nat.

(** The boards a session holds while it waits for a move: the board of
    [start], and the board left by a call of [game] that returned
    [CONTINUE_GAME]. *)
Inductive reachable : board → Prop :=
| reachable_start : reachable get_default_state
| reachable_game rnd data state state' acts :
    reachable state →
    game rnd data state = Ok (state', acts, CONTINUE_GAME) →
    reachable state'.

(** ** Dispatch of callback queries *)

(** The patterns of the handlers registered for [CONTINUE_GAME]:
    ['^' + f'{r}{c}' + '$' for r in range(3) for c in range(3)]. *)
Definition patterns : list string :=
  r ← range 3; c ← range 3; ["^" +:+ fmt_rc r c +:+ "$"].

(** [$] matches at the end of the string and just before a line feed that
    is the last character of the string. *)
Definition at_end (data : string) : bool :=
  match data with
  | EmptyString => true
  | String ch EmptyString => Ascii.eqb ch (ascii_of_nat 10)
  | _ => false
  end.

(** [re.match(pattern, data)] for a pattern made of [^], [$] and literal
    characters (the registered patterns have no other special character):
    the pattern is matched from the first character of [data], [^] matches
    at the start only, and what follows the match is not looked at. *)
Fixpoint re_match_from (pattern : string) (at_start : bool) (data : string) : bool :=
  match pattern with
  | EmptyString => true
  | String ch pattern' =>
      if Ascii.eqb ch "^" then at_start && re_match_from pattern' at_start data
      else if Ascii.eqb ch "$" then at_end data && re_match_from pattern' at_start data
      else match data with
           | String d data' => Ascii.eqb ch d && re_match_from pattern' false data'
           | EmptyString => false
           end
  end.

Definition re_match (pattern data : string) : bool :=
  re_match_from pattern true data.

(** In [CONTINUE_GAME] a callback query is handled by [game] when one of
    the registered patterns matches its data. *)
Definition reaches_game (data : string) : bool :=
  existsb (λ pattern, re_match pattern data) patterns.

(** The callback data of the nine buttons. *)
Definition button_data : list string := (λ p, fmt_rc p.1 p.2) <$> all_cells.

(** The board of the specification's [create()]: all nine cells EMPTY. *)
Definition empty_board : board := replicate 3 (replicate 3 FREE_SPACE).

(** ** The store: boards as shared list objects *)

Module Store.

(** An item of a list is an immutable string or a reference to a list. *)
Inductive value := Str (s : string) | Ref (l : nat).

(** The list objects, by address; a new object takes the next address. *)
Abbreviation heap := (list (list value)).

Definition alloc (h : heap) (items : list value) : heap * nat :=
  ((h ++ [items])%list, length h).

(** [y.append(v)] for the list at address [y]. *)
Definition append (h : heap) (y : nat) (v : value) : heap :=
  alter (λ items, (items ++ [v])%list) y h.

(** [[FREE_SPACE for _ in range(3)]] *)
Definition new_row (h : heap) : heap * nat :=
  let '(h, y) := alloc h [] in
  (foldl (λ h _, append h y (Str FREE_SPACE)) h (range 3), y).

(** [[[FREE_SPACE for _ in range(3)] for _ in range(3)]] *)
Definition new_board (h : heap) : heap * nat :=
  let '(h, y) := alloc h [] in
  (foldl (λ h _, let '(h, row) := new_row h in append h y (Ref row)) h (range 3), y).

(** The store once the module is loaded, and the address bound to
    [DEFAULT_STATE]. *)
Definition loaded : heap := (new_board []).1.
Definition DEFAULT_STATE : nat := (new_board []).2.

(** [copy.deepcopy(x, memo)]: a string is returned as it is; a list is
    copied into a new list, item by item, and a list met a second time
    is not copied again.  The recursion is as deep as the nesting of
    the lists, which [fuel] bounds. *)
Fixpoint deepcopy (fuel : nat) (x : value) (memo : gmap nat nat) (h : heap)
  : option (heap * gmap nat nat * value) :=
  match fuel with
  | 0 => None
  | S fuel =>
      match x with
      | Str _ => Some (h, memo, x)
      | Ref l =>
          match memo !! l with
          | Some y => Some (h, memo, Ref y)
          | None =>
              items ← h !! l;
              let '(h, y) := alloc h [] in
              let memo := <[l:=y]> memo in
              '(h, memo) ←
                foldl (λ acc a,
                         '(h, memo) ← acc;
                         '(h, memo, a') ← deepcopy fuel a memo h;
                         Some (append h y a', memo))
                      (Some (h, memo)) items;
              Some (h, memo, Ref y)
          end
      end
  end.

(** [deepcopy(DEFAULT_STATE)]: the nesting is at most the number of list
    objects. *)
Definition get_default_state (h : heap) : option (heap * nat) :=
  '(h, _, v) ← deepcopy (2 + length h) (Ref DEFAULT_STATE) ∅ h;
  match v with Ref y => Some (h, y) | Str _ => None end.

(** [state[r][c] = v] for the board at address [state]; [None] when the
    statement raises, which leaves the store as it was. *)
Definition setitem2 (h : heap) (state r c : nat) (v : string) : option heap :=
  outer ← h !! state;
  row ← outer !! r;
  match row with
  | Ref l =>
      items ← h !! l;
      if decide (c < length items) then Some (<[l:=<[c:=Str v]> items]> h)
      else None
  | Str _ => None
  end.

(** The board a reference stands for. *)
Definition read_row (h : heap) (v : value) : option (list string) :=
  match v with
  | Ref l =>
      items ← h !! l;
      mapM (λ x, match x with Str s => Some s | Ref _ => None end) items
  | Str _ => None
  end.

Definition read_board (h : heap) (state : nat) : option board :=
  outer ← h !! state; mapM (read_row h) outer.

(** The store and the boards handed out to sessions so far. *)
Record world := World { store : heap; sessions : list nat }.

(** What the handlers do to the store: [start], [end] and [stop] bind a
    fresh copy of the default board, [game] writes cells of a board that
    was handed out. *)
Inductive reachable : world → Prop :=
| reachable_loaded : reachable (World loaded [])
| reachable_fresh w h y :
    reachable w →
    get_default_state (store w) = Some (h, y) →
    reachable (World h (y :: sessions w))
| reachable_write w state r c v h :
    reachable w →
    state ∈ sessions w →
    setitem2 (store w) state r c v = Some h →
    reachable (World h (sessions w)).

(** The list at [l] is a board whose rows are the three lists allocated
    right after it, and whose cells are those of [b]. *)
Definition holds (h : heap) (l : nat) (b : board) : Prop :=
  ∃ r1 r2 r3,
    b = [r1; r2; r3] ∧ is_3x3 b = true ∧
    h !! l = Some [Ref (l + 1); Ref (l + 2); Ref (l + 3)] ∧
    h !! (l + 1) = Some (Str <$> r1) ∧
    h !! (l + 2) = Some (Str <$> r2) ∧
    h !! (l + 3) = Some (Str <$> r3).

(** [DEFAULT_STATE] is as the module created it, and every board handed
    out is a board of its own. *)
Definition inv (w : world) : Prop :=
  holds (store w) DEFAULT_STATE empty_board ∧
  (∃ n, length (store w) = 4 * S n) ∧
  ∀ y, y ∈ sessions w →
    y ≠ DEFAULT_STATE ∧ (∃ k, y = 4 * k) ∧ y < length (store w) ∧
    ∃ b, holds (store w) y b.

(** A store in which one session was started and the player's mark was
    written at the centre of its board. *)
Definition after_one_move : world :=
  World [ [Ref 1; Ref 2; Ref 3];
          [Str FREE_SPACE; Str FREE_SPACE; Str FREE_SPACE];
          [Str FREE_SPACE; Str FREE_SPACE; Str FREE_SPACE];
          [Str FREE_SPACE; Str FREE_SPACE; Str FREE_SPACE];
          [Ref 5; Ref 6; Ref 7];
          [Str FREE_SPACE; Str FREE_SPACE; Str FREE_SPACE];
          [Str FREE_SPACE; Str CROSS; Str FREE_SPACE];
          [Str FREE_SPACE; Str FREE_SPACE; Str FREE_SPACE] ]
        [4].

End Store.

(** ** What the keyboard shows *)

(** The grid of texts on the buttons, row by row as it is on screen. *)
Definition shown (kb : keyboard) : board :=
  (λ row : list InlineKeyboardButton, text <$> row) <$> kb.

(** The decimal digit [n] as a character. *)
Definition digit (n : nat) : ascii := ascii_of_nat (48 + n).

(** ** [game] with the board a raised exception leaves behind *)

(** [game] writes to the stored board in place, so the writes made before
    an exception stay.  An [io A] is a piece of a handler run on the
    stored board: it returns a value or raises, and in both cases gives
    the board as it leaves it. *)
Definition io (A : Type) : Type := board → board * result A.

#[global] Instance io_ret : MRet io := λ A a state, (state, Ok a).
#[global] Instance io_bind : MBind io := λ A B f m state,
  match m state with
  | (state', Ok a) => f a state'
  | (state', Raise e) => (state', Raise e)
  end.

(** An expression, which may read the board. *)
Definition reads {A} (f : board → result A) : io A := λ state, (state, f state).

(** [state[r][c] = v]: the cell is written, or [IndexError] is raised and
    nothing is written. *)
Definition writes (r c : nat) (v : string) : io unit := λ state,
  match setitem2 state r c v with
  | Ok state' => (state', Ok ())
  | Raise e => (state, Raise e)
  end.

(** The body of [game], statement by statement.  [game] is this
    computation without the board of a call that raises
    ([game_io_game]). *)
Definition game_io (rnd : nat) (data : string) : io (list action * Z) :=
  '(r, c) ← reads (λ _, unpack_move data);
  (* Free cell check *)
  x ← reads (λ state, getitem2 state r c);
  if negb (x =? FREE_SPACE) then
    mret ([answer; reply_text MSG_OCCUPIED None], CONTINUE_GAME)
  else
  (* User turn *)
  _ ← writes r c CROSS;
  (* User victory check *)
  w ← reads (λ state, won state CROSS);
  if w : bool then
    mret ([answer; reply_text MSG_YOU_WON None], FINISH_GAME)
  else
  (* AI turn (random cell) *)
  free_cells ← reads free_cells_of;
  ai_won ←
    (if truthy free_cells then
       '(ir, ic) ← reads (λ _, choice rnd free_cells);
       _ ← writes ir ic ZERO;
       (* AI victory check *)
       reads (λ state, won state ZERO)
     else mret false);
  if ai_won : bool then
    mret ([answer; reply_text MSG_AI_WON None], FINISH_GAME)
  else
  (* Draw check *)
  if negb (truthy free_cells) then
    mret ([answer; reply_text MSG_DRAW None], FINISH_GAME)
  else
  (* Updating the keyboard *)
  keyboard ← reads generate_keyboard;
  mret ([answer; edit_message_text MSG_TURN keyboard], CONTINUE_GAME).

(** ** The conversation set up by [main] *)

(** An update, as far as the handlers look at it: a message that is a
    command ([name] is the command, in lower case and without the slash),
    a callback query with its data, or a callback query that carries
    neither data nor the name of a game.  The buttons of this bot send
    their data; the other two kinds of query are what a client can send on
    its own. *)
Inductive update :=
| Command (name : string)
| CallbackQuery (data : string)
| CallbackQueryNoData.

(** The four callbacks of the module. *)
Inductive callback := cb_start | cb_game | cb_end | cb_stop.

Inductive handler :=
| CommandHandler (name : string) (f : callback)
| CallbackQueryHandler (f : callback) (pattern : string).

(** [handler.check_update(update)]: a command handler takes the commands
    of its name.  A callback query handler matches its pattern against the
    data only [if callback_data:], that is when there are data and they
    are not empty; a query with empty or missing data, which names no game
    either, is taken whatever the pattern. *)
Definition check_update (h : handler) (u : update) : bool :=
  match h, u with
  | CommandHandler name _, Command n => n =? name
  | CallbackQueryHandler _ pattern, CallbackQuery data =>
      match data with
      | EmptyString => true
      | _ => re_match pattern data
      end
  | CallbackQueryHandler _ _, CallbackQueryNoData => true
  | _, _ => false
  end.

Definition handler_callback (h : handler) : callback :=
  match h with CommandHandler _ f => f | CallbackQueryHandler f _ => f end.

(** The updates that one of the handlers registered for the buttons
    takes: the data a pattern matches, and the queries with empty or
    missing data. *)
Definition takes_query (u : update) : bool :=
  match u with
  | Command _ => false
  | CallbackQuery EmptyString => true
  | CallbackQuery data => reaches_game data
  | CallbackQueryNoData => true
  end.

(** The arguments of [ConversationHandler] in [main]. *)
Definition entry_points : list handler := [CommandHandler "start" cb_start].

Definition states (state : Z) : list handler :=
  if decide (state = CONTINUE_GAME) then CallbackQueryHandler cb_game <$> patterns
  else if decide (state = FINISH_GAME) then CallbackQueryHandler cb_end <$> patterns
  else [].

Definition fallbacks : list handler :=
  [CommandHandler "stop" cb_stop; CommandHandler "start" cb_start].

(** The handler a conversation handler picks: outside a conversation the
    first entry point that takes the update; inside, the first handler of
    the current state that takes it and, when there is none, the first
    fallback. *)
Definition select (conversation : option Z) (u : update) : option handler :=
  match conversation with
  | None => List.find (λ h, check_update h u) entry_points
  | Some state =>
      match List.find (λ h, check_update h u) (states state) with
      | Some h => Some h
      | None => List.find (λ h, check_update h u) fallbacks
      end
  end.

(** One user's session: the state of the conversation ([None] outside a
    conversation) and [user_data.get('keyboard_state')]. *)
Record session := Session { conversation : option Z; keyboard_state : option board }.

(** What a callback can raise: the exceptions of [game], [KeyError] for a
    missing [user_data['keyboard_state']], [AttributeError] for an update
    without callback query, [TypeError] for [map(int, None)]. *)
Inductive raised := KeyError | AttributeError | TypeError | Exn (e : exn).

(** How the call of a callback ends: it returns, it raises, or it hangs
    in [application.stop()], having stored the board [kb] and sent
    [acts]. *)
Inductive handled (A : Type) : Type :=
| Done (a : A)
| Failed (e : raised)
| Hangs (kb : option board) (acts : list action).
Arguments Done {A} a.
Arguments Failed {A} e.
Arguments Hangs {A} kb acts.

(** The call of a callback on an update.  [game] answers the query, then
    unpacks the data, then reads [user_data['keyboard_state']]. *)
Definition call (rnd : nat) (f : callback) (u : update) (kb : option board)
  : handled (option board * list action * Z) :=
  match f with
  | cb_start =>
      match start kb with Ok x => Done x | Raise e => Failed (Exn e) end
  | cb_game =>
      match u with
      | CallbackQuery data =>
          match kb with
          | Some state =>
              match game rnd data state with
              | Ok (state', acts, new_state) => Done (Some state', acts, new_state)
              | Raise e => Failed (Exn e)
              end
          | None =>
              match unpack_move data with
              | Ok _ => Failed KeyError
              | Raise e => Failed (Exn e)
              end
          end
      | CallbackQueryNoData => Failed TypeError
      | Command _ => Failed AttributeError
      end
  | cb_end => Done (end_ kb)
  | cb_stop => let '(kb', acts) := stop kb in Hangs kb' acts
  end.

(** One update: the selected callback runs, and the state it returns is
    the new state of the conversation, [END] closing it.  An update no
    handler takes changes nothing.  A callback that hangs returns no
    state: the conversation is not closed, and as the application is
    waiting for that callback no later update is handled.  What becomes of
    the session when a callback raises is not followed. *)
Definition step (rnd : nat) (s : session) (u : update)
  : handled (session * list action) :=
  match select (conversation s) u with
  | None => Done (s, [])
  | Some h =>
      match call rnd (handler_callback h) u (keyboard_state s) with
      | Done (kb, acts, new_state) =>
          Done (Session (if decide (new_state = END) then None else Some new_state) kb,
                acts)
      | Failed e => Failed e
      | Hangs kb acts => Hangs kb acts
      end
  end.

(** A run of updates, each with the number its random draw would give. *)
Fixpoint steps (s : session) (us : list (nat * update)) : handled session :=
  match us with
  | [] => Done s
  | (rnd, u) :: us' =>
      match step rnd s u with
      | Done (s', _) => steps s' us'
      | Failed e => Failed e
      | Hangs kb acts => Hangs kb acts
      end
  end.

(** The session of a user the bot has not heard of. *)
Definition new_session : session := Session None None.

(** The game on the board is over: a line is complete or no cell is
    EMPTY. *)
Definition game_over (state : board) : bool :=
  has_line state CROSS || has_line state ZERO || negb (truthy (free_list state)).

(** A run of a game: the player starts, plays the centre and the top
    left corner. *)
Definition sample_run : list (nat * update) :=
  [(0, Command "start"); (3, CallbackQuery "11"); (5, CallbackQuery "00")].

(** [state'] is [state] with marks added on EMPTY cells: every cell is as
    it was, or was EMPTY and holds a mark of one of the two sides. *)
Definition extends (state state' : board) : Prop :=
  is_3x3 state' = true ∧
  ∀ p, cell_at state' p = cell_at state p ∨
       (cell_at state p = Some FREE_SPACE ∧
        (cell_at state' p = Some CROSS ∨ cell_at state' p = Some ZERO)).

(** How many EMPTY cells a call of [game] with this outcome takes. *)
Definition cells_taken (o : GameOutcome) : nat :=
  match o with
  | ILLEGAL_MOVE => 0
  | PLAYER_WIN | DRAW => 1
  | OPPONENT_WIN | ONGOING => 2
  end.

(** What holds of a session between two updates: in a conversation the
    board is there; while the game goes on it is a board reached by play,
    and once the game is finished it is a 3x3 board on which the game is
    over. *)
Definition session_ok (s : session) : Prop :=
  match conversation s with
  | None => True
  | Some state =>
      ∃ b, keyboard_state s = Some b ∧
           ((state = CONTINUE_GAME ∧ reachable b) ∨
            (state = FINISH_GAME ∧ is_3x3 b = true ∧ game_over b = true))
  end.

(** The session [sample_run] leads to. *)
Definition sample_session : session :=
  Session (Some CONTINUE_GAME)
          (Some [[CROSS; FREE_SPACE; FREE_SPACE];
                 [ZERO; CROSS; FREE_SPACE];
                 [FREE_SPACE; FREE_SPACE; ZERO]]).

(** ** Basic facts *)

Lemma is_3x3_inv (state : board) :
  is_3x3 state = true →
  ∃ a b c d e f g h i, state = [[a; b; c]; [d; e; f]; [g; h; i]].
Proof.
  unfold is_3x3. intros H. apply andb_prop in H as [Hl Hr].
  apply Nat.eqb_eq in Hl.
  destruct state as [|r0 [|r1 [|r2 [|? ?]]]]; simplify_eq/=.
  repeat (apply andb_prop in Hr as [? Hr]).
  repeat match goal with
         | H : (length ?r =? 3)%nat = true |- _ =>
             apply Nat.eqb_eq in H;
             destruct r as [|? [|? [|? [|? ?]]]]; simplify_eq/=
         end.
  by repeat eexists.
Qed.

Lemma line_completeb_spec state mark l :
  line_completeb state mark l = true ↔ line_complete state mark l.
Proof.
  unfold line_completeb, line_complete.
  rewrite forallb_forall, Forall_forall.
  split; intros H p Hp.
  - apply list_elem_of_In in Hp. specialize (H p Hp).
    destruct (cell_at state p); [|done]. apply String.eqb_eq in H. by subst.
  - apply list_elem_of_In in Hp. rewrite (H p Hp). apply String.eqb_refl.
Qed.

Lemma has_line_spec state mark :
  has_line state mark = true ↔
  ∃ l, l ∈ canonical_lines ∧ line_complete state mark l.
Proof.
  unfold has_line. rewrite existsb_exists.
  split; intros (l & Hl & Hc); exists l.
  - split; [by apply list_elem_of_In | by apply line_completeb_spec].
  - split; [by apply list_elem_of_In | by apply line_completeb_spec].
Qed.

Lemma won_3x3 a b c d e f g h i symbol :
  won [[a; b; c]; [d; e; f]; [g; h; i]] symbol
  = Ok (has_line [[a; b; c]; [d; e; f]; [g; h; i]] symbol).
Proof.
  unfold won, has_line; cbn.
  destruct (a =? symbol), (b =? symbol), (c =? symbol),
           (d =? symbol), (e =? symbol), (f =? symbol),
           (g =? symbol), (h =? symbol), (i =? symbol); reflexivity.
Qed.

Lemma won_total state symbol :
  is_3x3 state = true → won state symbol = Ok (has_line state symbol).
Proof.
  intros (a & b & c & d & e & f & g & h & i & ->)%is_3x3_inv.
  apply won_3x3.
Qed.

Lemma won_true_iff (state : board) mark :
  is_3x3 state = true →
  won state mark = Ok true ↔ has_line state mark = true.
Proof.
  intros Hwf. rewrite won_total by done.
  split; [by intros [= ->] | by intros ->].
Qed.

Lemma won_false_iff (state : board) mark :
  is_3x3 state = true →
  won state mark = Ok false ↔ has_line state mark = false.
Proof.
  intros Hwf. rewrite won_total by done.
  split; [by intros [= ->] | by intros ->].
Qed.

Lemma line_complete_no_free (state : board) mark l p :
  p ∈ l → cell_at state p = Some FREE_SPACE → mark ≠ FREE_SPACE →
  ¬ line_complete state mark l.
Proof.
  intros Hp Hc Hm Hl. unfold line_complete in Hl.
  rewrite Forall_forall in Hl. specialize (Hl p Hp). congruence.
Qed.


(** ** Indexing a 3x3 board *)

Lemma in_range_cases (p : nat * nat) :
  in_range p = true → p ∈ all_cells.
Proof.
  destruct p as [r c]. unfold in_range; cbn.
  intros [Hr%Nat.leb_le Hc%Nat.leb_le]%andb_prop.
  destruct r as [|[|[|r]]]; [| | |lia];
    (destruct c as [|[|[|c]]]; [| | |lia]); unfold all_cells;
    repeat (first [by apply list_elem_of_here | apply list_elem_of_further]).
Qed.

Lemma all_cells_in_range (p : nat * nat) :
  p ∈ all_cells → in_range p = true.
Proof.
  unfold all_cells. intros H.
  repeat (apply elem_of_cons in H as [->|H]; [reflexivity|]).
  by apply elem_of_nil in H.
Qed.

Lemma getitem2_cell_at (state : board) r c :
  getitem2 state r c
  = match cell_at state (r, c) with Some x => Ok x | None => Raise IndexError end.
Proof.
  unfold getitem2, cell_at, getitem; cbn.
  destruct (state !! r) as [row|]; cbn; [|done].
  by destruct (row !! c).
Qed.

Lemma getitem2_in_range (state : board) r c x :
  is_3x3 state = true → getitem2 state r c = Ok x → in_range (r, c) = true.
Proof.
  intros (a & b & c' & d & e & f & g & h & i & ->)%is_3x3_inv.
  destruct r as [|[|[|r]]], c as [|[|[|c]]]; done.
Qed.

Lemma cell_at_is_Some (state : board) p :
  is_3x3 state = true → in_range p = true → is_Some (cell_at state p).
Proof.
  intros (a & b & c & d & e & f & g & h & i & ->)%is_3x3_inv Hp%in_range_cases.
  unfold all_cells in Hp.
  repeat (apply elem_of_cons in Hp as [->|Hp]; [by eexists|]).
  by apply elem_of_nil in Hp.
Qed.

Lemma setitem2_3x3 (state : board) r c v :
  is_3x3 state = true → in_range (r, c) = true →
  setitem2 state r c v = Ok (place state (r, c) v).
Proof.
  intros (a & b & c' & d & e & f & g & h & i & ->)%is_3x3_inv Hp%in_range_cases.
  unfold all_cells in Hp.
  repeat (apply elem_of_cons in Hp as [[= -> ->]|Hp]; [reflexivity|]).
  by apply elem_of_nil in Hp.
Qed.

Lemma setitem2_out_of_range (state : board) r c v :
  is_3x3 state = true → in_range (r, c) = false →
  setitem2 state r c v = Raise IndexError.
Proof.
  intros (a1 & a2 & a3 & b1 & b2 & b3 & c1 & c2 & c3 & ->)%is_3x3_inv.
  destruct r as [|[|[|r]]], c as [|[|[|c]]]; try done; intros _;
    unfold setitem2, setitem; cbn; case_decide; try done; cbn in *; lia.
Qed.

Lemma is_3x3_place (state : board) p v :
  is_3x3 state = true → is_3x3 (place state p v) = true.
Proof.
  intros (a & b & c & d & e & f & g & h & i & ->)%is_3x3_inv.
  destruct p as [[|[|[|r]]] [|[|[|c']]]]; reflexivity.
Qed.

Lemma cell_at_place (state : board) p q v :
  is_3x3 state = true → in_range p = true →
  cell_at (place state p v) q = if decide (p = q) then Some v else cell_at state q.
Proof.
  intros (a & b & c & d & e & f & g & h & i & ->)%is_3x3_inv Hp%in_range_cases.
  unfold all_cells in Hp.
  repeat (apply elem_of_cons in Hp as [->|Hp];
          [destruct q as [[|[|[|r]]] [|[|[|c']]]]; case_decide; simplify_eq/=; done|]).
  by apply elem_of_nil in Hp.
Qed.

Lemma cell_at_place_eq (state : board) p v :
  is_3x3 state = true → in_range p = true →
  cell_at (place state p v) p = Some v.
Proof. intros. rewrite cell_at_place by done. by rewrite decide_True. Qed.

Lemma cell_at_place_ne (state : board) p q v :
  p ≠ q → cell_at (place state p v) q = cell_at state q.
Proof.
  intros Hne. destruct p as [r c], q as [r' c']. unfold cell_at, place; cbn.
  destruct (decide (r = r')) as [->|Hr].
  - rewrite list_lookup_alter_eq. destruct (state !! r') as [row|]; cbn; [|done].
    apply list_lookup_insert_ne. congruence.
  - by rewrite list_lookup_alter_ne.
Qed.

Lemma is_free_spec (state : board) p :
  is_free state p = true ↔ cell_at state p = Some FREE_SPACE.
Proof.
  unfold is_free. destruct (cell_at state p) as [x|]; [|done].
  rewrite String.eqb_eq. naive_solver.
Qed.

Lemma free_cells_3x3 (state : board) :
  is_3x3 state = true → free_cells_of state = Ok (free_list state).
Proof.
  intros (a & b & c & d & e & f & g & h & i & ->)%is_3x3_inv.
  unfold free_cells_of, free_list, is_free; cbn.
  destruct (a =? FREE_SPACE), (b =? FREE_SPACE), (c =? FREE_SPACE),
           (d =? FREE_SPACE), (e =? FREE_SPACE), (f =? FREE_SPACE),
           (g =? FREE_SPACE), (h =? FREE_SPACE), (i =? FREE_SPACE); reflexivity.
Qed.

Lemma elem_of_free_list (state : board) p :
  p ∈ free_list state ↔ in_range p = true ∧ cell_at state p = Some FREE_SPACE.
Proof.
  unfold free_list. rewrite list_elem_of_In, filter_In, <- list_elem_of_In.
  unfold is_free. split.
  - intros [Hp Hc]. split; [by apply all_cells_in_range|].
    destruct (cell_at state p); [|done]. by apply String.eqb_eq in Hc as ->.
  - intros [Hp Hc]. split; [by apply in_range_cases|].
    rewrite Hc. apply String.eqb_refl.
Qed.

Lemma free_list_nil (state : board) :
  free_list state = [] ↔ ∀ p, in_range p = true → cell_at state p ≠ Some FREE_SPACE.
Proof.
  split.
  - intros Hnil p Hp Hc.
    assert (p ∈ free_list state) as Hin by by apply elem_of_free_list.
    rewrite Hnil in Hin. by apply elem_of_nil in Hin.
  - intros H. destruct (free_list state) as [|p l] eqn:E; [done|].
    assert (p ∈ free_list state) as Hin by (rewrite E; left).
    apply elem_of_free_list in Hin as [Hp Hc]. by destruct (H p Hp).
Qed.

Lemma generate_keyboard_3x3 (state : board) :
  is_3x3 state = true →
  generate_keyboard state
  = Ok ((λ c, (λ r, button_at state r c) <$> range 3) <$> range 3).
Proof.
  by intros (a & b & c & d & e & f & g & h & i & ->)%is_3x3_inv.
Qed.

Lemma unpack_move_fmt r c :
  in_range (r, c) = true → unpack_move (fmt_rc r c) = Ok (r, c).
Proof.
  intros Hp%in_range_cases. unfold all_cells in Hp.
  repeat (apply elem_of_cons in Hp as [[= -> ->]|Hp]; [reflexivity|]).
  by apply elem_of_nil in Hp.
Qed.

Lemma choice_elem_of {A} rnd (l : list A) :
  l ≠ [] → ∃ x, choice rnd l = Ok x ∧ x ∈ l.
Proof.
  intros Hl. unfold choice, getitem.
  assert (rnd mod length l < length l) as Hlt.
  { apply Nat.mod_upper_bound. by destruct l. }
  destruct (lookup_lt_is_Some_2 l _ Hlt) as [x Hx].
  rewrite Hx. exists x. split; [done|]. by eapply list_elem_of_lookup_2.
Qed.


(** ** Counting marks: whose turn it is *)

Lemma count_cells_place (state : board) p v w old :
  is_3x3 state = true → in_range p = true → cell_at state p = Some old →
  count_cells w (place state p v) + (if old =? w then 1 else 0)
  = count_cells w state + (if v =? w then 1 else 0).
Proof.
  intros (a & b & c & d & e & f & g & h & i & ->)%is_3x3_inv Hp%in_range_cases Hc.
  unfold all_cells in Hp.
  repeat (apply elem_of_cons in Hp as [->|Hp];
          [injection Hc as <-; unfold count_cells; cbn; lia|]).
  by apply elem_of_nil in Hp.
Qed.

Lemma is_mark_count x :
  is_mark x = true →
  (if x =? FREE_SPACE then 1 else 0) + (if x =? CROSS then 1 else 0)
  + (if x =? ZERO then 1 else 0) = 1.
Proof.
  unfold is_mark.
  destruct (String.eqb_spec x FREE_SPACE) as [->|_]; [done|].
  destruct (String.eqb_spec x CROSS) as [->|_]; [done|].
  by destruct (String.eqb_spec x ZERO) as [->|_].
Qed.

Lemma marks_count_length (l : list string) :
  forallb is_mark l = true →
  sum_list ((λ x, if x =? FREE_SPACE then 1 else 0) <$> l)
  + sum_list ((λ x, if x =? CROSS then 1 else 0) <$> l)
  + sum_list ((λ x, if x =? ZERO then 1 else 0) <$> l) = length l.
Proof.
  induction l as [|x l IH]; [done|]. cbn [forallb].
  intros [Hx Hl]%andb_prop. specialize (IH Hl).
  pose proof (is_mark_count x Hx). cbn. lia.
Qed.

Lemma count_cells_total (state : board) :
  is_3x3 state = true → forallb is_mark (concat state) = true →
  count_cells FREE_SPACE state + count_cells CROSS state
  + count_cells ZERO state = 9.
Proof.
  intros Hwf Hm. unfold count_cells. rewrite marks_count_length by done.
  by destruct (is_3x3_inv state Hwf) as (a & b & c & d & e & f & g & h & i & ->).
Qed.

Lemma marks_place (state : board) p v :
  is_3x3 state = true → is_mark v = true →
  forallb is_mark (concat state) = true →
  forallb is_mark (concat (place state p v)) = true.
Proof.
  intros (a & b & c & d & e & f & g & h & i & ->)%is_3x3_inv Hv Hm.
  cbn in Hm. repeat (apply andb_prop in Hm as [? Hm]).
  destruct p as [[|[|[|r]]] [|[|[|c']]]]; cbn;
    repeat (apply andb_true_intro; split); done.
Qed.

Lemma free_list_nil_count (state : board) :
  is_3x3 state = true → free_list state = [] → count_cells FREE_SPACE state = 0.
Proof.
  intros (a & b & c & d & e & f & g & h & i & ->)%is_3x3_inv.
  unfold free_list, is_free, count_cells; cbn.
  destruct (a =? FREE_SPACE), (b =? FREE_SPACE), (c =? FREE_SPACE),
           (d =? FREE_SPACE), (e =? FREE_SPACE), (f =? FREE_SPACE),
           (g =? FREE_SPACE), (h =? FREE_SPACE), (i =? FREE_SPACE); done.
Qed.

Lemma balanced_inv (state : board) :
  balanced state = true ↔
  forallb is_mark (concat state) = true ∧
  count_cells CROSS state = count_cells ZERO state.
Proof.
  unfold balanced. rewrite andb_true_iff, Nat.eqb_eq. done.
Qed.

(** After a move of each side onto EMPTY cells, a board on which it was
    the player's turn is a board on which it is the player's turn again,
    and it still has an EMPTY cell. *)
Lemma balanced_round (state : board) p q :
  is_3x3 state = true → balanced state = true →
  in_range p = true → cell_at state p = Some FREE_SPACE →
  in_range q = true → cell_at (place state p CROSS) q = Some FREE_SPACE →
  balanced (place (place state p CROSS) q ZERO) = true ∧
  free_list (place (place state p CROSS) q ZERO) ≠ [].
Proof.
  intros Hwf [Hm Hcnt]%balanced_inv Hp Hpf Hq Hqf.
  pose proof (is_3x3_place state p CROSS Hwf) as Hwf1.
  pose proof (is_3x3_place _ q ZERO Hwf1) as Hwf2.
  pose proof (marks_place state p CROSS Hwf eq_refl Hm) as Hm1.
  pose proof (marks_place _ q ZERO Hwf1 eq_refl Hm1) as Hm2.
  pose proof (count_cells_total _ Hwf Hm) as Ht.
  pose proof (count_cells_total _ Hwf2 Hm2) as Ht2.
  pose proof (count_cells_place state p CROSS CROSS _ Hwf Hp Hpf) as HX1.
  pose proof (count_cells_place state p CROSS ZERO _ Hwf Hp Hpf) as HO1.
  pose proof (count_cells_place _ q ZERO CROSS _ Hwf1 Hq Hqf) as HX2.
  pose proof (count_cells_place _ q ZERO ZERO _ Hwf1 Hq Hqf) as HO2.
  cbn in HX1, HO1, HX2, HO2.
  split.
  - apply balanced_inv. split; [done|]. lia.
  - intros Hnil%free_list_nil_count; [|done]. lia.
Qed.


(** ** The paths through [game] *)

(** Runs the error monad without unfolding the helpers of [game]. *)
Tactic Notation "run" :=
  cbn -[won free_cells_of generate_keyboard setitem2 getitem2 place
        has_line free_list choice unpack_move fmt_rc].

Tactic Notation "run" "in" hyp(H) :=
  cbn -[won free_cells_of generate_keyboard setitem2 getitem2 place
        has_line free_list choice unpack_move fmt_rc] in H.

Section paths.
Context (rnd r c : nat) (data : string) (state : board).
Hypothesis Hwf : is_3x3 state = true.
Hypothesis Hrc : in_range (r, c) = true.
Hypothesis Hdata : unpack_move data = Ok (r, c).

Lemma game_occupied :
  is_free state (r, c) = false →
  game rnd data state
  = Ok (state, [answer; reply_text MSG_OCCUPIED None], CONTINUE_GAME).
Proof using Hwf Hrc Hdata.
  intros Hocc. unfold game. rewrite Hdata. run.
  rewrite getitem2_cell_at. unfold is_free in Hocc.
  destruct (cell_at_is_Some state (r, c) Hwf Hrc) as [x Hx].
  rewrite Hx in *. run. by rewrite Hocc.
Qed.

Lemma game_user_turn :
  is_free state (r, c) = true →
  game rnd data state
  = (let state := place state (r, c) CROSS in
     if has_line state CROSS then
       Ok (state, [answer; reply_text MSG_YOU_WON None], FINISH_GAME)
     else
       let free_cells := free_list state in
       '(state, ai_won) ←
         (if truthy free_cells then
            '(ir, ic) ← choice rnd free_cells;
            let state := place state (ir, ic) ZERO in
            Ok (state, has_line state ZERO)
          else Ok (state, false));
       if ai_won : bool then
         Ok (state, [answer; reply_text MSG_AI_WON None], FINISH_GAME)
       else if negb (truthy free_cells) then
         Ok (state, [answer; reply_text MSG_DRAW None], FINISH_GAME)
       else
         keyboard ← generate_keyboard state;
         Ok (state, [answer; edit_message_text MSG_TURN keyboard], CONTINUE_GAME)).
Proof using Hwf Hrc Hdata.
  intros Hfree. unfold game. rewrite Hdata. run.
  rewrite getitem2_cell_at. unfold is_free in Hfree.
  destruct (cell_at state (r, c)) as [x|]; [|done]. run. rewrite Hfree. run.
  rewrite setitem2_3x3 by done. run.
  pose proof (is_3x3_place state (r, c) CROSS Hwf) as Hwf1.
  rewrite won_total by done. run.
  destruct (has_line _ CROSS); [done|].
  rewrite free_cells_3x3 by done. run.
  destruct (free_list _) as [|p0 l] eqn:Hfl; [done|]. cbn [truthy].
  destruct (choice_elem_of rnd (p0 :: l)) as ([ir ic] & -> & Hin); [done|].
  run. rewrite <- Hfl in Hin. apply elem_of_free_list in Hin as [Hp _].
  rewrite setitem2_3x3 by done. run.
  rewrite won_total by by apply is_3x3_place. done.
Qed.
End paths.

(** Side conditions of the path lemmas for a move sent by a button. *)
Ltac path := first [done | by apply unpack_move_fmt].

Section opponent.
Context (rnd r c : nat) (data : string) (state : board).
Hypothesis Hwf : is_3x3 state = true.
Hypothesis Hrc : in_range (r, c) = true.
Hypothesis Hdata : unpack_move data = Ok (r, c).
Hypothesis Hfree : is_free state (r, c) = true.
Hypothesis Hnowin : has_line (place state (r, c) CROSS) CROSS = false.

Lemma game_board_full :
  free_list (place state (r, c) CROSS) = [] →
  game rnd data state
  = Ok (place state (r, c) CROSS, [answer; reply_text MSG_DRAW None], FINISH_GAME).
Proof using Hwf Hrc Hdata Hfree Hnowin.
  intros Hnil. rewrite (game_user_turn rnd r c) by done. cbn zeta.
  by rewrite Hnowin, Hnil.
Qed.

Lemma game_opponent_turn :
  free_list (place state (r, c) CROSS) ≠ [] →
  ∃ p, p ∈ free_list (place state (r, c) CROSS) ∧
    game rnd data state
    = (let state := place (place state (r, c) CROSS) p ZERO in
       if has_line state ZERO then
         Ok (state, [answer; reply_text MSG_AI_WON None], FINISH_GAME)
       else
         Ok (state,
             [answer;
              edit_message_text MSG_TURN
                ((λ c, (λ r, button_at state r c) <$> range 3) <$> range 3)],
             CONTINUE_GAME)).
Proof using Hwf Hrc Hdata Hfree Hnowin.
  intros Hne. rewrite (game_user_turn rnd r c) by done. cbn zeta. rewrite Hnowin.
  destruct (choice_elem_of rnd _ Hne) as ([ir ic] & Hch & Hin).
  exists (ir, ic). split; [done|].
  destruct (free_list _) as [|p0 l]; [done|]. cbn [truthy].
  rewrite Hch. run.
  destruct (has_line _ ZERO); [done|]. run.
  rewrite generate_keyboard_3x3 by by do 2 apply is_3x3_place.
  done.
Qed.
End opponent.

(** On a 3x3 board a move in range makes [game] return. *)
Lemma game_returns (rnd r c : nat) (state : board) :
  is_3x3 state = true → in_range (r, c) = true →
  ∃ state' acts phase, game rnd (fmt_rc r c) state = Ok (state', acts, phase).
Proof.
  intros Hwf Hrc.
  destruct (is_free state (r, c)) eqn:Hfree.
  2: { rewrite (game_occupied rnd r c) by path. by eexists _, _, _. }
  destruct (has_line (place state (r, c) CROSS) CROSS) eqn:Hwin.
  { rewrite (game_user_turn rnd r c) by path. cbn zeta. rewrite Hwin.
    by eexists _, _, _. }
  destruct (decide (free_list (place state (r, c) CROSS) = [])) as [Hnil|Hne].
  { rewrite (game_board_full rnd r c) by path. by eexists _, _, _. }
  destruct (game_opponent_turn rnd r c _ state Hwf Hrc (unpack_move_fmt r c Hrc)
              Hfree Hwin Hne) as (p & Hp & ->).
  cbn zeta. destruct (has_line _ ZERO); by eexists _, _, _.
Qed.

(** What a call of [game] that returns [CONTINUE_GAME] did to a 3x3
    board: nothing, or one move of each side onto EMPTY cells. *)
Lemma game_continue_inv rnd data (state state' : board) acts :
  is_3x3 state = true →
  game rnd data state = Ok (state', acts, CONTINUE_GAME) →
  state' = state ∨
  ∃ p q, in_range p = true ∧ cell_at state p = Some FREE_SPACE ∧
         in_range q = true ∧ cell_at (place state p CROSS) q = Some FREE_SPACE ∧
         state' = place (place state p CROSS) q ZERO.
Proof.
  intros Hwf Hgame.
  destruct (unpack_move data) as [[r c]|e] eqn:Hdata.
  2: { unfold game in Hgame. by rewrite Hdata in Hgame. }
  destruct (getitem2 state r c) as [x|e] eqn:Hx.
  2: { unfold game in Hgame. rewrite Hdata in Hgame. run in Hgame.
       by rewrite Hx in Hgame. }
  pose proof (getitem2_in_range state r c x Hwf Hx) as Hrc.
  destruct (is_free state (r, c)) eqn:Hfree.
  2: { rewrite (game_occupied rnd r c) in Hgame by done. left. congruence. }
  right. exists (r, c).
  destruct (has_line (place state (r, c) CROSS) CROSS) eqn:Hwin.
  { rewrite (game_user_turn rnd r c) in Hgame by done.
    cbn zeta in Hgame. by rewrite Hwin in Hgame. }
  destruct (decide (free_list (place state (r, c) CROSS) = [])) as [Hnil|Hne].
  { by rewrite (game_board_full rnd r c) in Hgame. }
  destruct (game_opponent_turn rnd r c data state Hwf Hrc Hdata Hfree Hwin Hne)
    as (q & [Hq Hqf]%elem_of_free_list & Heq).
  rewrite Heq in Hgame. cbn zeta in Hgame.
  exists q. apply is_free_spec in Hfree.
  destruct (has_line _ ZERO); [done|].
  repeat split; [done..|congruence].
Qed.

(** Every board a session holds while it waits for a move is a 3x3 board
    on which it is the player's turn. *)
Lemma reachable_balanced (state : board) :
  reachable state → is_3x3 state = true ∧ balanced state = true.
Proof.
  induction 1 as [|rnd data state state' acts _ [Hwf Hbal] Hgame]; [done|].
  apply game_continue_inv in Hgame as [->|(p & q & Hp & Hpf & Hq & Hqf & ->)];
    [done| |done].
  split; [by do 2 apply is_3x3_place|].
  by apply balanced_round.
Qed.


(** ** The store *)

Lemma store_holds_read h l (b : board) :
  Store.holds h l b → Store.read_board h l = Some b.
Proof.
  intros (r1 & r2 & r3 & -> & Hwf & Hl & H1 & H2 & H3).
  unfold Store.read_board. rewrite Hl.
  destruct (is_3x3_inv _ Hwf) as (a & b' & c & d & e & f & g & h' & i & [= -> -> ->]).
  cbn. rewrite H1, H2, H3. reflexivity.
Qed.

Lemma store_append_app (h ext : Store.heap) k v :
  Store.append (h ++ ext)%list (length h + k) v = (h ++ Store.append ext k v)%list.
Proof. unfold Store.append. apply alter_app_r. Qed.

Lemma store_append_app0 (h ext : Store.heap) x v :
  Store.append (h ++ x :: ext)%list (length h) v = (h ++ (x ++ [v])%list :: ext)%list.
Proof.
  rewrite <- (Nat.add_0_r (length h)) at 1. by rewrite store_append_app.
Qed.

Lemma store_lookup_new (h ext : Store.heap) k :
  (h ++ ext)%list !! (length h + k) = ext !! k.
Proof. rewrite lookup_app_r by lia. f_equal. lia. Qed.

Lemma store_deepcopy_ref fuel l (memo : gmap nat nat) (h : Store.heap) :
  Store.deepcopy (S fuel) (Store.Ref l) memo h
  = match memo !! l with
    | Some y => Some (h, memo, Store.Ref y)
    | None =>
        items ← h !! l;
        '(h', memo') ←
          foldl (λ acc a,
                   '(h', memo') ← acc;
                   '(h', memo', a') ← Store.deepcopy fuel a memo' h';
                   Some (Store.append h' (length h) a', memo'))
                (Some ((h ++ [[]])%list, <[l:=length h]> memo)) items;
        Some (h', memo', Store.Ref (length h))
    end.
Proof. reflexivity. Qed.

(** Copying the items of a list of strings appends them one by one. *)
Lemma store_copy_strings fuel (h : Store.heap) (memo : gmap nat nat) pre (ss : list string) :
  foldl (λ acc a,
           '(h', memo') ← acc;
           '(h', memo', a') ← Store.deepcopy (S fuel) a memo' h';
           Some (Store.append h' (length h) a', memo'))
        (Some ((h ++ [pre])%list, memo)) (Store.Str <$> ss)
  = Some ((h ++ [(pre ++ (Store.Str <$> ss))%list])%list, memo).
Proof.
  revert pre. induction ss as [|s ss IH]; intros pre.
  - cbn. by rewrite app_nil_r.
  - cbn [fmap list_fmap foldl]. cbn [Store.deepcopy mbind option_bind].
    rewrite store_append_app0. cbn [fmap list_fmap] in IH. rewrite IH.
    by rewrite <- app_assoc.
Qed.

Lemma store_deepcopy_row fuel (h : Store.heap) (memo : gmap nat nat) l (ss : list string) :
  h !! l = Some (Store.Str <$> ss) → memo !! l = None →
  Store.deepcopy (S (S fuel)) (Store.Ref l) memo h
  = Some ((h ++ [Store.Str <$> ss])%list, <[l:=length h]> memo,
          Store.Ref (length h)).
Proof.
  intros Hl Hmemo. rewrite store_deepcopy_ref, Hmemo, Hl.
  cbn [mbind option_bind].
  by rewrite store_copy_strings.
Qed.

Lemma store_default_state_addr : Store.DEFAULT_STATE = 0.
Proof. reflexivity. Qed.

(** Copying a board that owns its rows: the copy is a new list followed
    by three new rows, and the lists that were there are untouched. *)
Lemma store_deepcopy_board fuel (h : Store.heap) l r1 r2 r3 :
  h !! l = Some [Store.Ref (l + 1); Store.Ref (l + 2); Store.Ref (l + 3)] →
  h !! (l + 1) = Some (Store.Str <$> r1) →
  h !! (l + 2) = Some (Store.Str <$> r2) →
  h !! (l + 3) = Some (Store.Str <$> r3) →
  Store.deepcopy (S (S (S fuel))) (Store.Ref l) ∅ h
  = Some ((h ++ [[Store.Ref (length h + 1); Store.Ref (length h + 2);
                  Store.Ref (length h + 3)];
                 Store.Str <$> r1; Store.Str <$> r2; Store.Str <$> r3])%list,
          <[l + 3:=length h + 3]> (<[l + 2:=length h + 2]>
            (<[l + 1:=length h + 1]> (<[l:=length h]> ∅))),
          Store.Ref (length h)).
Proof.
  intros H0 H1 H2 H3.
  rewrite store_deepcopy_ref, lookup_empty, H0.
  cbn [mbind option_bind foldl].
  rewrite (store_deepcopy_row _ _ _ (l + 1) r1).
  2: { by apply lookup_app_l_Some. }
  2: { rewrite lookup_insert_ne by lia. apply lookup_empty. }
  cbn [mbind option_bind]. rewrite <- app_assoc. cbn [app].
  rewrite store_append_app0, length_app. cbn [length app].
  rewrite (store_deepcopy_row _ _ _ (l + 2) r2).
  2: { by apply lookup_app_l_Some. }
  2: { rewrite !lookup_insert_ne by lia. apply lookup_empty. }
  cbn [mbind option_bind]. rewrite <- app_assoc. cbn [app].
  rewrite store_append_app0, length_app. cbn [length app].
  rewrite (store_deepcopy_row _ _ _ (l + 3) r3).
  2: { by apply lookup_app_l_Some. }
  2: { rewrite !lookup_insert_ne by lia. apply lookup_empty. }
  cbn [mbind option_bind]. rewrite <- app_assoc. cbn [app].
  rewrite store_append_app0, length_app. cbn [length app].
  reflexivity.
Qed.

Lemma store_holds_app (h ext : Store.heap) l (b : board) :
  Store.holds h l b → Store.holds (h ++ ext)%list l b.
Proof.
  intros (r1 & r2 & r3 & -> & Hwf & Hl & H1 & H2 & H3).
  exists r1, r2, r3. repeat split; try done; by apply lookup_app_l_Some.
Qed.

Lemma store_holds_length (h : Store.heap) l (b : board) :
  Store.holds h l b → l + 3 < length h.
Proof.
  intros (r1 & r2 & r3 & _ & _ & _ & _ & _ & H3). by eapply lookup_lt_Some.
Qed.

(** A fresh copy of the default board: a new list with new rows, holding
    the cells of [DEFAULT_STATE]; every board that was there is as it
    was. *)
Lemma store_get_default_state (h : Store.heap) (b : board) :
  Store.holds h Store.DEFAULT_STATE b →
  ∃ h', Store.get_default_state h = Some (h', length h) ∧
        length h' = length h + 4 ∧
        Store.holds h' (length h) b ∧
        ∀ l b', Store.holds h l b' → Store.holds h' l b'.
Proof.
  intros Hb. pose proof (store_holds_length _ _ _ Hb) as Hlen.
  destruct Hb as (r1 & r2 & r3 & -> & Hwf & Hl & H1 & H2 & H3).
  rewrite store_default_state_addr in *.
  unfold Store.get_default_state. rewrite store_default_state_addr.
  assert (∃ n, 2 + length h = S (S (S n))) as [n ->].
  { exists (length h - 1). lia. }
  rewrite (store_deepcopy_board _ h 0 r1 r2 r3) by done.
  cbn [mbind option_bind]. eexists. split; [reflexivity|].
  split; [rewrite length_app; cbn; lia|]. split.
  - exists r1, r2, r3. repeat split; try done.
    + rewrite <- (Nat.add_0_r (length h)) at 1. by rewrite store_lookup_new.
    + by rewrite store_lookup_new.
    + by rewrite store_lookup_new.
    + by rewrite store_lookup_new.
  - intros l b'. apply store_holds_app.
Qed.

Lemma store_setitem2_in_range (h h' : Store.heap) l (b : board) r c v :
  Store.holds h l b → Store.setitem2 h l r c v = Some h' →
  in_range (r, c) = true.
Proof.
  intros (r1 & r2 & r3 & -> & Hwf & Hl & H1 & H2 & H3).
  destruct (is_3x3_inv _ Hwf) as (a1 & a2 & a3 & b1 & b2 & b3 & c1 & c2 & c3 & [= -> -> ->]).
  unfold Store.setitem2. rewrite Hl. cbn [mbind option_bind].
  destruct r as [|[|[|r]]]; cbn; [rewrite H1|rewrite H2|rewrite H3|done];
    cbn; case_decide; try done; intros _;
    (destruct c as [|[|[|c]]]; [done..|cbn in *; lia]).
Qed.

(** Writing a cell of a board that owns its rows changes that cell of
    that board, and no board away from it. *)
Lemma store_setitem2_holds (h : Store.heap) l (b : board) r c v :
  Store.holds h l b → in_range (r, c) = true →
  ∃ h', Store.setitem2 h l r c v = Some h' ∧
        length h' = length h ∧
        Store.holds h' l (place b (r, c) v) ∧
        ∀ l' b', l' + 3 < l ∨ l + 3 < l' →
                 Store.holds h l' b' → Store.holds h' l' b'.
Proof.
  intros Hb Hrc. pose proof (store_holds_length _ _ _ Hb) as Hlen.
  destruct Hb as (r1 & r2 & r3 & -> & Hwf & Hl & H1 & H2 & H3).
  pose proof (is_3x3_place _ (r, c) v Hwf) as Hwf'.
  destruct (is_3x3_inv _ Hwf) as (a1 & a2 & a3 & b1 & b2 & b3 & c1 & c2 & c3 & [= -> -> ->]).
  apply in_range_cases in Hrc. unfold all_cells in Hrc.
  unfold Store.setitem2. rewrite Hl. cbn [mbind option_bind].
  repeat (apply elem_of_cons in Hrc as [[= -> ->]|Hrc];
    [cbn; rewrite ?H1, ?H2, ?H3; cbn; eexists; split; [reflexivity|];
     split; [by rewrite length_insert|]; split;
     [eexists _, _, _; split; [reflexivity|]; split; [done|];
      rewrite ?list_lookup_insert_eq, ?list_lookup_insert_ne by lia; done
     |intros l' b' Hfar (r1' & r2' & r3' & -> & Hwfb & Hl' & H1' & H2' & H3');
      exists r1', r2', r3';
      rewrite !list_lookup_insert_ne by lia; done]|]).
  by apply elem_of_nil in Hrc.
Qed.

(** The state-passing [setitem2] is the write to the store, read back. *)
Lemma store_setitem2_refines (h : Store.heap) l (b : board) r c v :
  Store.holds h l b →
  match setitem2 b r c v with
  | Ok b' => ∃ h', Store.setitem2 h l r c v = Some h' ∧ Store.holds h' l b'
  | Raise _ => Store.setitem2 h l r c v = None
  end.
Proof.
  intros Hb. pose proof Hb as (? & ? & ? & _ & Hwf & _).
  destruct (in_range (r, c)) eqn:Hrc.
  - rewrite setitem2_3x3 by done.
    destruct (store_setitem2_holds _ _ _ r c v Hb Hrc) as (h' & ? & _ & ? & _).
    by exists h'.
  - rewrite setitem2_out_of_range by done.
    destruct (Store.setitem2 h l r c v) as [h'|] eqn:Hset; [|done].
    pose proof (store_setitem2_in_range _ _ _ _ _ _ _ Hb Hset). congruence.
Qed.

(** Whatever the handlers did so far, [DEFAULT_STATE] is as the module
    created it and every board handed out owns its rows. *)
Lemma store_reachable_inv w : Store.reachable w → Store.inv w.
Proof.
  induction 1 as [|w h y _ IH Hget|w state r c v h _ IH Hin Hset].
  - split; [|split].
    + exists (replicate 3 FREE_SPACE), (replicate 3 FREE_SPACE),
        (replicate 3 FREE_SPACE). by repeat split.
    + by exists 0.
    + intros y Hy. by apply elem_of_nil in Hy.
  - destruct IH as (Hd & (n & Hlen) & Hs).
    destruct (store_get_default_state _ _ Hd) as (h' & Hg & Hlen' & Hnew & Hframe).
    rewrite Hg in Hget. injection Hget as <- <-.
    unfold Store.inv. rewrite store_default_state_addr in *.
    cbn [Store.store Store.sessions].
    split; [by apply Hframe|]. split; [exists (S n); lia|].
    intros y [->|Hy]%elem_of_cons.
    + split; [lia|]. split; [exists (S n); lia|]. split; [lia|]. by eexists.
    + destruct (Hs y Hy) as (? & ? & ? & b & Hb).
      split; [done|]. split; [done|]. split; [lia|]. exists b. by apply Hframe.
  - destruct IH as (Hd & (n & Hlen) & Hs).
    destruct (Hs state Hin) as (Hne & (k & ->) & Hlt & b & Hb).
    pose proof (store_setitem2_in_range _ _ _ _ _ _ _ Hb Hset) as Hrc.
    destruct (store_setitem2_holds _ _ _ r c v Hb Hrc)
      as (h' & Hset' & Hlen' & Hnew & Hframe).
    rewrite Hset' in Hset. injection Hset as <-.
    unfold Store.inv. rewrite store_default_state_addr in *.
    cbn [Store.store Store.sessions].
    split; [apply Hframe; [lia|done]|]. split; [exists n; lia|].
    intros y Hy. destruct (Hs y Hy) as (? & (k' & ->) & ? & b' & Hb').
    split; [done|]. split; [by eexists|]. split; [lia|].
    destruct (decide (k' = k)) as [->|Hk]; [by eexists|].
    exists b'. apply Hframe; [lia|done].
Qed.

Lemma store_after_one_move_reachable : Store.reachable Store.after_one_move.
Proof.
  apply (Store.reachable_write
           (Store.World
              (Store.loaded ++
               [[Store.Ref 5; Store.Ref 6; Store.Ref 7];
                Store.Str <$> replicate 3 FREE_SPACE;
                Store.Str <$> replicate 3 FREE_SPACE;
                Store.Str <$> replicate 3 FREE_SPACE])
              [4]) 4 1 1 CROSS);
    [|by left|reflexivity].
  apply (Store.reachable_fresh (Store.World Store.loaded []) _ 4);
    [apply Store.reachable_loaded|reflexivity].
Defined.


(** ** Which callback data reach [game] *)

Lemma patterns_all_cells :
  patterns = (λ p, "^" +:+ fmt_rc p.1 p.2 +:+ "$") <$> all_cells.
Proof. reflexivity. Qed.

Lemma at_end_spec data : at_end data = true ↔ data = "" ∨ data = nl.
Proof.
  destruct data as [|ch [|ch' rest]]; cbn.
  - naive_solver.
  - rewrite Ascii.eqb_eq. split; [intros ->; by right|].
    by intros [|[= ->]].
  - split; [done|]. by intros [|].
Qed.

(** A pattern [^ab$] of two literal characters accepts [ab] and [ab]
    followed by one line feed. *)
Lemma re_match_anchored a b data :
  Ascii.eqb a "^" = false → Ascii.eqb a "$" = false →
  Ascii.eqb b "^" = false → Ascii.eqb b "$" = false →
  re_match (String "^" (String a (String b "$"))) data = true ↔
  data = String a (String b "") ∨ data = String a (String b nl).
Proof.
  intros Ha1 Ha2 Hb1 Hb2. unfold re_match. cbn [re_match_from].
  rewrite Ha1, Ha2, Hb1, Hb2. cbn.
  destruct data as [|d1 [|d2 rest]]; cbn.
  - split; [done|]. by intros [|].
  - rewrite andb_false_r. split; [done|]. by intros [|].
  - rewrite andb_true_r, !andb_true_iff, !Ascii.eqb_eq, at_end_spec.
    split.
    + intros (-> & -> & [->| ->]); first [by left | by right].
    + intros [[= <- <- <-]|[= <- <- <-]]; repeat split;
        first [done | by left | by right].
Qed.

Lemma reaches_game_iff data :
  reaches_game data = true ↔
  ∃ p, in_range p = true ∧
       (data = fmt_rc p.1 p.2 ∨ data = fmt_rc p.1 p.2 +:+ nl).
Proof.
  unfold reaches_game. rewrite existsb_exists, patterns_all_cells. split.
  - intros (pattern & Hin & Hm). apply list_elem_of_In in Hin.
    apply list_elem_of_fmap in Hin as (p & -> & Hp).
    exists p. split; [by apply all_cells_in_range|].
    unfold all_cells in Hp.
    repeat (apply elem_of_cons in Hp as [->|Hp];
            [by apply re_match_anchored in Hm|]).
    by apply elem_of_nil in Hp.
  - intros (p & Hp%in_range_cases & Hdata).
    exists ("^" +:+ fmt_rc p.1 p.2 +:+ "$"). split.
    { apply list_elem_of_In, list_elem_of_fmap. by exists p. }
    unfold all_cells in Hp.
    repeat (apply elem_of_cons in Hp as [->|Hp];
            [by apply re_match_anchored|]).
    by apply elem_of_nil in Hp.
Qed.

(** Data that reach [game] and can be parsed give coordinates in range. *)
Lemma reaches_game_parsed data r c :
  reaches_game data = true → unpack_move data = Ok (r, c) →
  in_range (r, c) = true ∧ data = fmt_rc r c.
Proof.
  intros (p & Hp & Hdata)%reaches_game_iff Hparse.
  pose proof Hp as Hcases%in_range_cases. unfold all_cells in Hcases.
  repeat (apply elem_of_cons in Hcases as [->|Hcases];
          [destruct Hdata as [-> | ->]; vm_compute in Hparse;
           [by injection Hparse as <- <-|done]|]).
  by apply elem_of_nil in Hcases.
Qed.

(** The data of every button reach [game] and are parsed back to the
    coordinates of the button. *)
Lemma reaches_game_button r c :
  in_range (r, c) = true →
  reaches_game (fmt_rc r c) = true ∧ unpack_move (fmt_rc r c) = Ok (r, c).
Proof.
  intros Hrc. split; [|by apply unpack_move_fmt].
  apply reaches_game_iff. exists (r, c). split; [done|by left].
Qed.

(** On a 3x3 board no data that reach [game] make it index out of range. *)
Lemma reaches_game_no_index_error rnd data (state : board) :
  reaches_game data = true → is_3x3 state = true →
  game rnd data state ≠ Raise IndexError.
Proof.
  intros Hreach Hwf.
  destruct (unpack_move data) as [[r c]|e] eqn:Hparse.
  - destruct (reaches_game_parsed _ _ _ Hreach Hparse) as [Hrc ->].
    destruct (game_returns rnd r c state Hwf Hrc) as (? & ? & ? & ->). done.
  - unfold game. rewrite Hparse. cbn.
    apply reaches_game_iff in Hreach as (p & Hp%in_range_cases & Hdata).
    unfold all_cells in Hp.
    repeat (apply elem_of_cons in Hp as [->|Hp];
            [destruct Hdata as [-> | ->]; vm_compute in Hparse;
             [done|by injection Hparse as <-]|]).
    by apply elem_of_nil in Hp.
Qed.


(** ** The draw check and the opponent's move *)




(** ** Win detection *)

(** C2: on every 3x3 board and for every mark, [won] returns, and it
    returns true exactly when one of the eight canonical lines (three rows,
    three columns, two diagonals) holds the mark in all three cells; a line
    that has an EMPTY cell in place of the mark does not count: when no
    other line is complete, [won] returns false. *)
Theorem won_iff_canonical_line (fields : board) (mark : string) :
  is_3x3 fields = true →
  (∃ b, won fields mark = Ok b) ∧
  (won fields mark = Ok true ↔
     ∃ l, l ∈ canonical_lines ∧ line_complete fields mark l) ∧
  (∀ l p, l ∈ canonical_lines → p ∈ l →
     cell_at fields p = Some FREE_SPACE → mark ≠ FREE_SPACE →
     (∀ l', l' ∈ canonical_lines → l' ≠ l → ¬ line_complete fields mark l') →
     won fields mark = Ok false).
Proof.
  intros Hwf. split; [|split].
  - rewrite won_total by done. by eexists.
  - rewrite won_true_iff by done. apply has_line_spec.
  - intros l p Hl Hp Hc Hm Hothers.
    apply won_false_iff; [done|]. apply not_true_is_false.
    intros (l' & Hl' & Hc')%has_line_spec.
    destruct (decide (l' = l)) as [->|Hne].
    + by eapply line_complete_no_free.
    + by eapply Hothers.
Qed.

Lemma won_iff_canonical_line_witness :
  (∃ b, won board_two_in_row CROSS = Ok b) ∧
  (won board_two_in_row CROSS = Ok true ↔
     ∃ l, l ∈ canonical_lines ∧ line_complete board_two_in_row CROSS l) ∧
  (∀ l p, l ∈ canonical_lines → p ∈ l →
     cell_at board_two_in_row p = Some FREE_SPACE → CROSS ≠ FREE_SPACE →
     (∀ l', l' ∈ canonical_lines → l' ≠ l →
        ¬ line_complete board_two_in_row CROSS l') →
     won board_two_in_row CROSS = Ok false).
Proof. apply (won_iff_canonical_line board_two_in_row CROSS). reflexivity. Defined.


(** ** The move transaction *)

(** C3: on every 3x3 board, a move onto a cell in range that is not EMPTY
    is answered with ILLEGAL_MOVE, the board that comes back is the board
    that went in, and the session stays in AWAITING_MOVE. *)
Theorem game_occupied_is_illegal (rnd r c : nat) (state : board) (x : string) :
  is_3x3 state = true → in_range (r, c) = true →
  cell_at state (r, c) = Some x → x ≠ FREE_SPACE →
  ∃ acts,
    game rnd (fmt_rc r c) state = Ok (state, acts, AWAITING_MOVE) ∧
    outcome_of acts = Some ILLEGAL_MOVE.
Proof.
  intros Hwf Hrc Hx Hne.
  assert (is_free state (r, c) = false) as Hocc.
  { unfold is_free. rewrite Hx. by apply String.eqb_neq. }
  rewrite (game_occupied rnd r c) by path. by eexists.
Qed.

Lemma game_occupied_is_illegal_witness :
  ∃ acts,
    game 4 (fmt_rc 1 1) board_centre_taken
    = Ok (board_centre_taken, acts, AWAITING_MOVE) ∧
    outcome_of acts = Some ILLEGAL_MOVE.
Proof.
  apply (game_occupied_is_illegal 4 1 1 board_centre_taken ZERO);
    [reflexivity | reflexivity | reflexivity | discriminate].
Defined.

(** C4: when the move is legal and the player's mark completes a line,
    the outcome is PLAYER_WIN, the session becomes TERMINAL, and the board
    that comes back differs from the one that went in at the played cell
    only, which now holds the player's mark: no opponent mark is placed,
    the board has as many opponent marks as before. *)
Theorem game_player_win (rnd r c : nat) (state : board) :
  is_3x3 state = true → in_range (r, c) = true →
  cell_at state (r, c) = Some FREE_SPACE →
  won (place state (r, c) CROSS) CROSS = Ok true →
  ∃ state' acts,
    game rnd (fmt_rc r c) state = Ok (state', acts, TERMINAL) ∧
    outcome_of acts = Some PLAYER_WIN ∧
    state' = place state (r, c) CROSS ∧
    cell_at state' (r, c) = Some CROSS ∧
    (∀ q, q ≠ (r, c) → cell_at state' q = cell_at state q) ∧
    count_cells ZERO state' = count_cells ZERO state.
Proof.
  intros Hwf Hrc Hfree Hwon. pose proof Hfree as Hfreeb%is_free_spec.
  apply won_true_iff in Hwon; [|by apply is_3x3_place].
  rewrite (game_user_turn rnd r c) by path. cbn zeta. rewrite Hwon.
  eexists _, _. split; [reflexivity|]. split; [reflexivity|].
  split; [reflexivity|]. split; [by apply cell_at_place_eq|].
  split; [intros q Hq; by apply cell_at_place_ne|].
  pose proof (count_cells_place state (r, c) CROSS ZERO _ Hwf Hrc Hfree) as Hcnt.
  change (FREE_SPACE =? ZERO) with false in Hcnt.
  change (CROSS =? ZERO) with false in Hcnt. cbn iota in Hcnt. lia.
Qed.

Lemma game_player_win_witness :
  ∃ state' acts,
    game 7 (fmt_rc 0 2) board_two_in_row = Ok (state', acts, TERMINAL) ∧
    outcome_of acts = Some PLAYER_WIN ∧
    state' = place board_two_in_row (0, 2) CROSS ∧
    cell_at state' (0, 2) = Some CROSS ∧
    (∀ q, q ≠ (0, 2) → cell_at state' q = cell_at board_two_in_row q) ∧
    count_cells ZERO state' = count_cells ZERO board_two_in_row.
Proof. apply (game_player_win 7 0 2 board_two_in_row); reflexivity. Defined.

(** C5: when the legal move takes the last EMPTY cell and completes no
    line of the player, the outcome is DRAW, the session becomes TERMINAL,
    and the board that comes back is the input board with the player's
    mark added: the opponent does not move, the board has as many opponent
    marks as before. *)
Theorem game_draw_on_last_cell (rnd r c : nat) (state : board) :
  is_3x3 state = true → in_range (r, c) = true →
  cell_at state (r, c) = Some FREE_SPACE →
  (∀ q, in_range q = true → q ≠ (r, c) → cell_at state q ≠ Some FREE_SPACE) →
  won (place state (r, c) CROSS) CROSS = Ok false →
  ∃ state' acts,
    game rnd (fmt_rc r c) state = Ok (state', acts, TERMINAL) ∧
    outcome_of acts = Some DRAW ∧
    state' = place state (r, c) CROSS ∧
    (∀ q, q ≠ (r, c) → cell_at state' q = cell_at state q) ∧
    count_cells ZERO state' = count_cells ZERO state.
Proof.
  intros Hwf Hrc Hfree Hlast Hwon. pose proof Hfree as Hfreeb%is_free_spec.
  apply won_false_iff in Hwon; [|by apply is_3x3_place].
  rewrite (game_user_turn rnd r c) by path. cbn zeta. rewrite Hwon.
  assert (free_list (place state (r, c) CROSS) = []) as ->.
  { apply free_list_nil. intros q Hq. rewrite cell_at_place by done.
    case_decide; [done|]. apply Hlast; [done|congruence]. }
  eexists _, _. split; [reflexivity|]. split; [reflexivity|].
  split; [reflexivity|]. split; [intros q Hq; by apply cell_at_place_ne|].
  pose proof (count_cells_place state (r, c) CROSS ZERO _ Hwf Hrc Hfree) as Hcnt.
  change (FREE_SPACE =? ZERO) with false in Hcnt.
  change (CROSS =? ZERO) with false in Hcnt. cbn iota in Hcnt. lia.
Qed.

Lemma game_draw_on_last_cell_witness :
  ∃ state' acts,
    game 3 (fmt_rc 2 2) board_last_cell = Ok (state', acts, TERMINAL) ∧
    outcome_of acts = Some DRAW ∧
    state' = place board_last_cell (2, 2) CROSS ∧
    (∀ q, q ≠ (2, 2) → cell_at state' q = cell_at board_last_cell q) ∧
    count_cells ZERO state' = count_cells ZERO board_last_cell.
Proof.
  apply (game_draw_on_last_cell 3 2 2 board_last_cell);
    [reflexivity..| |reflexivity].
  intros q Hq%in_range_cases Hne. unfold all_cells in Hq.
  repeat (apply elem_of_cons in Hq as [->|Hq]; [done|]).
  by apply elem_of_nil in Hq.
Defined.

(** C6: when the move is legal, the player does not win and an EMPTY cell
    is left after the player's mark, the call returns the board with one
    more change: a single cell, taken from the list of cells that were
    EMPTY after the player's mark, now holds the opponent's mark, every
    other cell is as the player's move left it, and the board has one
    opponent mark more than before. *)
Theorem game_one_counter_move (rnd r c : nat) (state : board) :
  is_3x3 state = true → in_range (r, c) = true →
  cell_at state (r, c) = Some FREE_SPACE →
  won (place state (r, c) CROSS) CROSS = Ok false →
  (∃ q, in_range q = true ∧ cell_at (place state (r, c) CROSS) q = Some FREE_SPACE) →
  ∃ p free_cells state' acts phase,
    game rnd (fmt_rc r c) state = Ok (state', acts, phase) ∧
    free_cells_of (place state (r, c) CROSS) = Ok free_cells ∧
    p ∈ free_cells ∧
    cell_at (place state (r, c) CROSS) p = Some FREE_SPACE ∧
    state' = place (place state (r, c) CROSS) p ZERO ∧
    cell_at state' p = Some ZERO ∧
    (∀ q, q ≠ p → cell_at state' q = cell_at (place state (r, c) CROSS) q) ∧
    count_cells ZERO state' = S (count_cells ZERO state).
Proof.
  intros Hwf Hrc Hfreec Hwon (q & Hq & Hqfree).
  pose proof Hfreec as Hfree%is_free_spec.
  pose proof (is_3x3_place state (r, c) CROSS Hwf) as Hwf1.
  apply won_false_iff in Hwon; [|done].
  assert (free_list (place state (r, c) CROSS) ≠ []) as Hne.
  { intros Hnil. by eapply free_list_nil. }
  destruct (game_opponent_turn rnd r c _ state Hwf Hrc (unpack_move_fmt r c Hrc)
              Hfree Hwon Hne)
    as (p & Hp & Hgame).
  pose proof Hp as [Hprange Hpfree]%elem_of_free_list.
  exists p, (free_list (place state (r, c) CROSS)).
  assert (∃ acts phase,
    game rnd (fmt_rc r c) state
    = Ok (place (place state (r, c) CROSS) p ZERO, acts, phase))
    as (acts & phase & ->).
  { rewrite Hgame. cbn zeta. destruct (has_line _ ZERO); by eexists _, _. }
  eexists _, acts, phase. split; [reflexivity|].
  split; [by apply free_cells_3x3|]. split; [done|]. split; [done|].
  split; [done|]. split; [by apply cell_at_place_eq|].
  split; [intros q' Hq'; by apply cell_at_place_ne|].
  pose proof (count_cells_place state (r, c) CROSS ZERO _ Hwf Hrc Hfreec) as Hc1.
  pose proof (count_cells_place _ p ZERO ZERO _ Hwf1 Hprange Hpfree) as Hc2.
  change (FREE_SPACE =? ZERO) with false in Hc1, Hc2.
  change (CROSS =? ZERO) with false in Hc1.
  change (ZERO =? ZERO) with true in Hc2. cbn iota in Hc1, Hc2. lia.
Qed.

Lemma game_one_counter_move_witness :
  ∃ p free_cells state' acts phase,
    game 11 (fmt_rc 0 0) empty_board = Ok (state', acts, phase) ∧
    free_cells_of (place empty_board (0, 0) CROSS) = Ok free_cells ∧
    p ∈ free_cells ∧
    cell_at (place empty_board (0, 0) CROSS) p = Some FREE_SPACE ∧
    state' = place (place empty_board (0, 0) CROSS) p ZERO ∧
    cell_at state' p = Some ZERO ∧
    (∀ q, q ≠ p →
       cell_at state' q = cell_at (place empty_board (0, 0) CROSS) q) ∧
    count_cells ZERO state' = S (count_cells ZERO empty_board).
Proof.
  apply (game_one_counter_move 11 0 0 empty_board); [reflexivity..|].
  exists (1, 1). split; reflexivity.
Defined.

(** Settles the phase of a path of [game] whose result is known. *)
Ltac by_outcome :=
  eexists _, _, _, _; do 2 (split; [reflexivity|]);
  unfold AWAITING_MOVE, TERMINAL, CONTINUE_GAME, FINISH_GAME;
  repeat split; intros; try done;
  repeat match goal with H : _ ∨ _ |- _ => destruct H end;
  first [done | by left | by right | by right; left | by right; right].

(** C7: on every 3x3 board and for every move in range, the call returns,
    reports one outcome, and leaves the session in one of the two distinct
    states AWAITING_MOVE and TERMINAL: in AWAITING_MOVE exactly when the
    outcome is ILLEGAL_MOVE or ONGOING, in TERMINAL exactly when it is
    PLAYER_WIN, OPPONENT_WIN or DRAW. *)
Theorem game_phase_by_outcome (rnd r c : nat) (state : board) :
  is_3x3 state = true → in_range (r, c) = true →
  ∃ state' acts phase o,
    game rnd (fmt_rc r c) state = Ok (state', acts, phase) ∧
    outcome_of acts = Some o ∧
    (phase = AWAITING_MOVE ∨ phase = TERMINAL) ∧
    AWAITING_MOVE ≠ TERMINAL ∧
    (phase = AWAITING_MOVE ↔ o = ILLEGAL_MOVE ∨ o = ONGOING) ∧
    (phase = TERMINAL ↔ o = PLAYER_WIN ∨ o = OPPONENT_WIN ∨ o = DRAW).
Proof.
  intros Hwf Hrc.
  destruct (is_free state (r, c)) eqn:Hfree.
  2: { rewrite (game_occupied rnd r c) by path.
       by_outcome. }
  destruct (has_line (place state (r, c) CROSS) CROSS) eqn:Hwin.
  { rewrite (game_user_turn rnd r c) by path. cbn zeta. rewrite Hwin.
    by_outcome. }
  destruct (decide (free_list (place state (r, c) CROSS) = [])) as [Hnil|Hne].
  { rewrite (game_board_full rnd r c) by path.
    by_outcome. }
  destruct (game_opponent_turn rnd r c _ state Hwf Hrc (unpack_move_fmt r c Hrc)
              Hfree Hwin Hne)
    as (p & Hp & ->).
  cbn zeta. destruct (has_line _ ZERO).
  - by_outcome.
  - by_outcome.
Qed.

Lemma game_phase_by_outcome_witness :
  ∃ state' acts phase o,
    game 2 (fmt_rc 1 1) get_default_state = Ok (state', acts, phase) ∧
    outcome_of acts = Some o ∧
    (phase = AWAITING_MOVE ∨ phase = TERMINAL) ∧
    AWAITING_MOVE ≠ TERMINAL ∧
    (phase = AWAITING_MOVE ↔ o = ILLEGAL_MOVE ∨ o = ONGOING) ∧
    (phase = TERMINAL ↔ o = PLAYER_WIN ∨ o = OPPONENT_WIN ∨ o = DRAW).
Proof. apply (game_phase_by_outcome 2 1 1 get_default_state); reflexivity. Defined.


(** ** Starting and resetting a session *)





(** ** Callback data with a line feed *)

(** C9: the pattern [^00$] accepts the data [00] followed by a line feed,
    which is none of the nine strings of the buttons; [game] is called on
    it and raises [ValueError] when it unpacks the coordinates, whatever
    the board. *)
Theorem line_feed_reaches_game :
  reaches_game ("00" +:+ nl) = true ∧
  (("00" +:+ nl) ∉ button_data) ∧
  ∀ rnd (state : board), game rnd ("00" +:+ nl) state = Raise ValueError.
Proof.
  split; [reflexivity|]. split; [|reflexivity].
  unfold button_data, all_cells. intros Hin.
  repeat (apply elem_of_cons in Hin as [[=]|Hin]).
  by apply elem_of_nil in Hin.
Qed.


(** ** The keyboard *)

(** C10: on every 3x3 board the keyboard is built, it has three rows of
    three buttons, and the button in row [i] and column [j] of the keyboard
    shows the cell [state[j][i]] and carries the callback data of [j]
    followed by [i]: the data, parsed by [game], address the cell the
    button shows, and the grid on screen is the board with rows and columns
    exchanged. *)
Theorem generate_keyboard_transposed (state : board) (i j : nat) :
  is_3x3 state = true → i < 3 → j < 3 →
  ∃ kb row b,
    generate_keyboard state = Ok kb ∧ length kb = 3 ∧
    kb !! i = Some row ∧ length row = 3 ∧ row !! j = Some b ∧
    cell_at state (j, i) = Some (text b) ∧
    callback_data b = fmt_rc j i ∧
    unpack_move (callback_data b) = Ok (j, i) ∧
    getitem2 state j i = Ok (text b).
Proof.
  intros (a & b & c & d & e & f & g & h & k & ->)%is_3x3_inv Hi Hj.
  destruct i as [|[|[|i]]]; [| | |lia];
    (destruct j as [|[|[|j]]]; [| | |lia]);
    eexists _, _, _; repeat split; reflexivity.
Qed.

Lemma generate_keyboard_transposed_witness :
  ∃ kb row b,
    generate_keyboard board_two_in_row = Ok kb ∧ length kb = 3 ∧
    kb !! 2 = Some row ∧ length row = 3 ∧ row !! 0 = Some b ∧
    cell_at board_two_in_row (0, 2) = Some (text b) ∧
    callback_data b = fmt_rc 0 2 ∧
    unpack_move (callback_data b) = Ok (0, 2) ∧
    getitem2 board_two_in_row 0 2 = Ok (text b).
Proof.
  apply (generate_keyboard_transposed board_two_in_row 2 0);
    [reflexivity|lia|lia].
Defined.

(** ** Every way [game] returns *)

Lemma getitem2_out_of_range (state : board) r c :
  is_3x3 state = true → in_range (r, c) = false →
  getitem2 state r c = Raise IndexError.
Proof.
  intros (a1 & a2 & a3 & b1 & b2 & b3 & c1 & c2 & c3 & ->)%is_3x3_inv.
  destruct r as [|[|[|r]]], c as [|[|[|c]]]; done.
Qed.

(** A call of [game] that returns took one of its five ways out. *)
Lemma game_ok_inv rnd data (state state' : board) acts phase :
  is_3x3 state = true →
  game rnd data state = Ok (state', acts, phase) →
  ∃ r c, unpack_move data = Ok (r, c) ∧ in_range (r, c) = true ∧
    ((is_free state (r, c) = false ∧ state' = state ∧
      acts = [answer; reply_text MSG_OCCUPIED None] ∧ phase = CONTINUE_GAME)
     ∨ (is_free state (r, c) = true ∧
        has_line (place state (r, c) CROSS) CROSS = true ∧
        state' = place state (r, c) CROSS ∧
        acts = [answer; reply_text MSG_YOU_WON None] ∧ phase = FINISH_GAME)
     ∨ (is_free state (r, c) = true ∧
        has_line (place state (r, c) CROSS) CROSS = false ∧
        free_list (place state (r, c) CROSS) = [] ∧
        state' = place state (r, c) CROSS ∧
        acts = [answer; reply_text MSG_DRAW None] ∧ phase = FINISH_GAME)
     ∨ (is_free state (r, c) = true ∧
        has_line (place state (r, c) CROSS) CROSS = false ∧
        ∃ q, q ∈ free_list (place state (r, c) CROSS) ∧
             state' = place (place state (r, c) CROSS) q ZERO ∧
             ((has_line state' ZERO = true ∧
               acts = [answer; reply_text MSG_AI_WON None] ∧
               phase = FINISH_GAME)
              ∨ (has_line state' ZERO = false ∧
                 outcome_of acts = Some ONGOING ∧ phase = CONTINUE_GAME)))).
Proof.
  intros Hwf Hgame.
  destruct (unpack_move data) as [[r c]|e] eqn:Hdata.
  2: { unfold game in Hgame. by rewrite Hdata in Hgame. }
  destruct (getitem2 state r c) as [x|e] eqn:Hx.
  2: { unfold game in Hgame. rewrite Hdata in Hgame. run in Hgame.
       by rewrite Hx in Hgame. }
  pose proof (getitem2_in_range state r c x Hwf Hx) as Hrc.
  exists r, c. split; [done|]. split; [done|].
  destruct (is_free state (r, c)) eqn:Hfree.
  2: { rewrite (game_occupied rnd r c) in Hgame by done.
       injection Hgame as <- <- <-. by left. }
  right.
  destruct (has_line (place state (r, c) CROSS) CROSS) eqn:Hwin.
  { rewrite (game_user_turn rnd r c) in Hgame by done.
    cbn zeta in Hgame. rewrite Hwin in Hgame.
    injection Hgame as <- <- <-. by left. }
  right.
  destruct (decide (free_list (place state (r, c) CROSS) = [])) as [Hnil|Hne].
  { rewrite (game_board_full rnd r c) in Hgame by done.
    injection Hgame as <- <- <-. by left. }
  right. split; [done|]. split; [done|].
  destruct (game_opponent_turn rnd r c data state Hwf Hrc Hdata Hfree Hwin Hne)
    as (q & Hq & Heq).
  rewrite Heq in Hgame. cbn zeta in Hgame. exists q. split; [done|].
  destruct (has_line (place (place state (r, c) CROSS) q ZERO) ZERO) eqn:Hai;
    injection Hgame as <- <- <-; (split; [done|]).
  - by left.
  - by right.
Qed.

(** On a 3x3 board, data that unpack to a cell in range make [game]
    return. *)
Lemma game_returns_data rnd r c data (state : board) :
  is_3x3 state = true → in_range (r, c) = true →
  unpack_move data = Ok (r, c) →
  ∃ state' acts phase, game rnd data state = Ok (state', acts, phase).
Proof.
  intros Hwf Hrc Hdata.
  destruct (is_free state (r, c)) eqn:Hfree.
  2: { rewrite (game_occupied rnd r c) by done. by eexists _, _, _. }
  destruct (has_line (place state (r, c) CROSS) CROSS) eqn:Hwin.
  { rewrite (game_user_turn rnd r c) by done. cbn zeta. rewrite Hwin.
    by eexists _, _, _. }
  destruct (decide (free_list (place state (r, c) CROSS) = [])) as [Hnil|Hne].
  { rewrite (game_board_full rnd r c) by done. by eexists _, _, _. }
  destruct (game_opponent_turn rnd r c data state Hwf Hrc Hdata Hfree Hwin Hne)
    as (p & Hp & ->).
  cbn zeta. destruct (has_line _ ZERO); by eexists _, _, _.
Qed.

Lemma extends_refl (state : board) : is_3x3 state = true → extends state state.
Proof. intros Hwf. split; [done|]. intros p. by left. Qed.

Lemma extends_place (state0 state : board) p v :
  extends state0 state → in_range p = true →
  cell_at state p = Some FREE_SPACE → v = CROSS ∨ v = ZERO →
  extends state0 (place state p v).
Proof.
  intros [Hwf Hcells] Hp Hfree Hv. split; [by apply is_3x3_place|].
  intros q. rewrite cell_at_place by done. case_decide as Hq.
  - subst q.
    destruct (Hcells p) as [Heq|[H0 [H1|H1]]];
      [|by rewrite Hfree in H1|by rewrite Hfree in H1].
    right. split; [congruence|]. by destruct Hv as [-> | ->]; [left|right].
  - apply Hcells.
Qed.

(** A mark written over a cell changes the lines of another mark only if
    the cell held that mark. *)
Lemma has_line_place_other (state : board) p old v mark :
  is_3x3 state = true → in_range p = true →
  cell_at state p = Some old → old ≠ mark → v ≠ mark →
  has_line (place state p v) mark = has_line state mark.
Proof.
  intros (a & b & c & d & e & f & g & h & i & ->)%is_3x3_inv Hp%in_range_cases
    Hold Ho%String.eqb_neq Hv%String.eqb_neq.
  unfold all_cells in Hp.
  repeat (apply elem_of_cons in Hp as [->|Hp];
    [injection Hold as ->; unfold has_line; cbn; rewrite Ho, Hv;
     repeat match goal with
            | |- context [?x =? mark] => destruct (x =? mark)
            end; done|]).
  by apply elem_of_nil in Hp.
Qed.

Lemma balanced_has_free (state : board) :
  is_3x3 state = true → balanced state = true → free_list state ≠ [].
Proof.
  intros Hwf [Hm Hcnt]%balanced_inv Hnil%free_list_nil_count; [|done].
  pose proof (count_cells_total _ Hwf Hm). lia.
Qed.

Lemma all_pure (symbol : string) (row : list string) :
  all_ (λ cell, Ok (cell =? symbol)) row = Ok (forallb (λ cell, cell =? symbol) row).
Proof.
  induction row as [|x row IH]; [done|]. cbn.
  destruct (x =? symbol); [apply IH|done].
Qed.

Lemma any_pure {A} (f : A → bool) (l : list A) :
  any_ (λ x, Ok (f x)) l = Ok (existsb f l).
Proof.
  induction l as [|x l IH]; [done|]. cbn. destruct (f x); [done|apply IH].
Qed.

(** ** What [game] does to the board *)

(** X1: on a 3x3 board, whatever the callback data and the random draw, a
    call of [game] that returns gives back a 3x3 board on which every cell
    is as it was or was EMPTY and now holds X or O; a cell that held a
    mark holds the same mark. *)
Theorem game_only_adds_marks rnd data (state state' : board) acts phase :
  is_3x3 state = true →
  game rnd data state = Ok (state', acts, phase) →
  extends state state' ∧
  ∀ p x, cell_at state p = Some x → x ≠ FREE_SPACE → cell_at state' p = Some x.
Proof.
  intros Hwf Hgame.
  assert (extends state state') as Hext.
  { apply game_ok_inv in Hgame as (r & c & _ & Hrc & Hcases); [|done].
    pose proof (extends_refl state Hwf) as H0.
    destruct Hcases as [(_ & -> & _)|[(Hf%is_free_spec & _ & -> & _)
      |[(Hf%is_free_spec & _ & _ & -> & _)
       |(Hf%is_free_spec & _ & q & [Hq Hqf]%elem_of_free_list & -> & _)]]].
    - done.
    - apply extends_place; [done..|by left].
    - apply extends_place; [done..|by left].
    - apply extends_place; [|done..|by right].
      apply extends_place; [done..|by left]. }
  split; [done|]. intros p x Hx Hne.
  destruct Hext as [_ Hcells]. destruct (Hcells p) as [->|[Hfree _]]; [done|].
  congruence.
Qed.

Lemma game_only_adds_marks_witness :
  extends board_two_in_row (place board_two_in_row (0, 2) CROSS) ∧
  ∀ p x, cell_at board_two_in_row p = Some x → x ≠ FREE_SPACE →
         cell_at (place board_two_in_row (0, 2) CROSS) p = Some x.
Proof.
  apply (game_only_adds_marks 0 "02" board_two_in_row _
           [answer; reply_text MSG_YOU_WON None] FINISH_GAME);
    reflexivity.
Defined.

(** X2: on a 3x3 board the message [game] sends tells the truth about the
    board it leaves: "occupied" leaves the board as it was; "You won" is
    sent only with a complete line of X; "AI won" only with a complete
    line of O and none of X; "Draw" only with no EMPTY cell and no line of
    X; the turn prompt only when neither side has a line. *)
Theorem game_outcome_sound rnd data (state state' : board) acts phase :
  is_3x3 state = true →
  game rnd data state = Ok (state', acts, phase) →
  ∃ o, outcome_of acts = Some o ∧
    match o with
    | ILLEGAL_MOVE => state' = state
    | PLAYER_WIN => won state' CROSS = Ok true
    | OPPONENT_WIN => won state' ZERO = Ok true ∧ won state' CROSS = Ok false
    | DRAW => won state' CROSS = Ok false ∧ free_cells_of state' = Ok []
    | ONGOING => won state' CROSS = Ok false ∧ won state' ZERO = Ok false
    end.
Proof.
  intros Hwf Hgame.
  apply game_ok_inv in Hgame as (r & c & _ & Hrc & Hcases); [|done].
  pose proof (is_3x3_place state (r, c) CROSS Hwf) as Hwf1.
  destruct Hcases as [(_ & -> & -> & _)|[(_ & Hwin & -> & -> & _)
    |[(_ & Hwin & Hnil & -> & -> & _)
     |(_ & Hwin & q & [Hq Hqf]%elem_of_free_list & -> & Hai)]]].
  - by exists ILLEGAL_MOVE.
  - exists PLAYER_WIN. split; [done|]. by apply won_true_iff.
  - exists DRAW. split; [done|]. split; [by apply won_false_iff|].
    by rewrite free_cells_3x3, Hnil.
  - pose proof (is_3x3_place _ q ZERO Hwf1) as Hwf2.
    assert (won (place (place state (r, c) CROSS) q ZERO) CROSS = Ok false) as HX.
    { apply won_false_iff; [done|].
      by rewrite (has_line_place_other _ q FREE_SPACE). }
    destruct Hai as [(Hai & -> & _)|(Hai & Hout & _)].
    + exists OPPONENT_WIN. split; [done|]. split; [by apply won_true_iff|done].
    + exists ONGOING. split; [done|]. split; [done|by apply won_false_iff].
Qed.

Lemma game_outcome_sound_witness :
  ∃ o, outcome_of [answer; reply_text MSG_DRAW None] = Some o ∧
    match o with
    | ILLEGAL_MOVE => place board_last_cell (2, 2) CROSS = board_last_cell
    | PLAYER_WIN => won (place board_last_cell (2, 2) CROSS) CROSS = Ok true
    | OPPONENT_WIN =>
        won (place board_last_cell (2, 2) CROSS) ZERO = Ok true ∧
        won (place board_last_cell (2, 2) CROSS) CROSS = Ok false
    | DRAW =>
        won (place board_last_cell (2, 2) CROSS) CROSS = Ok false ∧
        free_cells_of (place board_last_cell (2, 2) CROSS) = Ok []
    | ONGOING =>
        won (place board_last_cell (2, 2) CROSS) CROSS = Ok false ∧
        won (place board_last_cell (2, 2) CROSS) ZERO = Ok false
    end.
Proof.
  apply (game_outcome_sound 0 "22" board_last_cell _ _ FINISH_GAME); reflexivity.
Defined.

(** X3: a call of [game] that returns takes EMPTY cells from the board:
    none when the move is refused, one when the player wins or fills the
    board, two (the player's and the opponent's) otherwise. *)
Theorem game_takes_cells rnd data (state state' : board) acts phase :
  is_3x3 state = true →
  game rnd data state = Ok (state', acts, phase) →
  ∃ o, outcome_of acts = Some o ∧
       count_cells FREE_SPACE state
       = count_cells FREE_SPACE state' + cells_taken o.
Proof.
  intros Hwf Hgame.
  apply game_ok_inv in Hgame as (r & c & _ & Hrc & Hcases); [|done].
  pose proof (is_3x3_place state (r, c) CROSS Hwf) as Hwf1.
  assert (∀ (st : board) p v, is_3x3 st = true → in_range p = true →
            cell_at st p = Some FREE_SPACE → v = CROSS ∨ v = ZERO →
            count_cells FREE_SPACE st
            = count_cells FREE_SPACE (place st p v) + 1) as Hstep.
  { intros st p v Hst Hp Hf Hv.
    pose proof (count_cells_place st p v FREE_SPACE _ Hst Hp Hf) as Hc.
    change (FREE_SPACE =? FREE_SPACE) with true in Hc.
    destruct Hv as [-> | ->];
      [change (CROSS =? FREE_SPACE) with false in Hc
      |change (ZERO =? FREE_SPACE) with false in Hc];
      cbn iota in Hc; lia. }
  destruct Hcases as [(_ & -> & -> & _)|[(Hf%is_free_spec & _ & -> & -> & _)
    |[(Hf%is_free_spec & _ & _ & -> & -> & _)
     |(Hf%is_free_spec & _ & q & [Hq Hqf]%elem_of_free_list & -> & Hai)]]].
  - exists ILLEGAL_MOVE. split; [done|]. unfold cells_taken. lia.
  - exists PLAYER_WIN. split; [done|]. apply Hstep; [done..|by left].
  - exists DRAW. split; [done|]. apply Hstep; [done..|by left].
  - pose proof (Hstep state (r, c) CROSS Hwf Hrc Hf (or_introl eq_refl)) as H1.
    pose proof (Hstep _ q ZERO Hwf1 Hq Hqf (or_intror eq_refl)) as H2.
    destruct Hai as [(_ & -> & _)|(_ & Hout & _)].
    + exists OPPONENT_WIN. split; [done|]. unfold cells_taken. lia.
    + exists ONGOING. split; [done|]. unfold cells_taken. lia.
Qed.

Lemma game_takes_cells_witness :
  ∃ o, outcome_of [answer; reply_text MSG_YOU_WON None] = Some o ∧
       count_cells FREE_SPACE board_two_in_row
       = count_cells FREE_SPACE (place board_two_in_row (0, 2) CROSS)
         + cells_taken o.
Proof.
  apply (game_takes_cells 0 "02" board_two_in_row _ _ FINISH_GAME); reflexivity.
Defined.

(** X4: on a 3x3 board [game] raises exactly when the data do not unpack
    (the exception of the unpacking) or unpack to a cell outside the board
    ([IndexError]); in every other case it returns. *)
Theorem game_raises_iff rnd data (state : board) e :
  is_3x3 state = true →
  game rnd data state = Raise e ↔
  unpack_move data = Raise e ∨
  ∃ r c, unpack_move data = Ok (r, c) ∧ in_range (r, c) = false ∧ e = IndexError.
Proof.
  intros Hwf. destruct (unpack_move data) as [[r c]|e'] eqn:Hdata.
  - destruct (in_range (r, c)) eqn:Hrc.
    + destruct (game_returns_data rnd r c data state Hwf Hrc Hdata)
        as (? & ? & ? & ->).
      split; [done|]. intros [[=]|(? & ? & [= <- <-] & ? & _)]. congruence.
    + assert (game rnd data state = Raise IndexError) as ->.
      { unfold game. rewrite Hdata. run.
        by rewrite getitem2_out_of_range. }
      split.
      * intros [= <-]. right. by exists r, c.
      * by intros [[=]|(? & ? & _ & _ & ->)].
  - assert (game rnd data state = Raise e') as ->.
    { unfold game. by rewrite Hdata. }
    split.
    + intros [= <-]. by left.
    + by intros [[= ->]|(? & ? & [=] & _)].
Qed.

Lemma game_raises_iff_witness :
  game 0 "13" empty_board = Raise IndexError ↔
  unpack_move "13" = Raise IndexError ∨
  ∃ r c, unpack_move "13" = Ok (r, c) ∧ in_range (r, c) = false ∧
         IndexError = IndexError.
Proof. apply (game_raises_iff 0 "13" empty_board IndexError). reflexivity. Defined.

(** ** The board after an exception *)

(** [game] is [game_io] without the board of a raising call. *)
Lemma game_io_game rnd data (state : board) :
  game rnd data state
  = match game_io rnd data state with
    | (state', Ok (acts, new_state)) => Ok (state', acts, new_state)
    | (_, Raise e) => Raise e
    end.
Proof.
  unfold game, game_io, reads, writes, mbind, mret, io_bind, io_ret, result_bind,
    result_ret.
  destruct (unpack_move data) as [[r c]|]; [|done].
  destruct (getitem2 state r c) as [x|]; [|done].
  destruct (negb (x =? FREE_SPACE)); [done|].
  destruct (setitem2 state r c CROSS) as [state1|]; [|done].
  destruct (won state1 CROSS) as [[|]|]; [done| |done].
  destruct (free_cells_of state1) as [free_cells|]; [|done].
  destruct (truthy free_cells); cbn [negb].
  - destruct (choice rnd free_cells) as [[ir ic]|]; [|done].
    destruct (setitem2 state1 ir ic ZERO) as [state2|]; [|done].
    destruct (won state2 ZERO) as [[|]|]; [done| |done].
    by destruct (generate_keyboard state2).
  - done.
Qed.

(** X18: a call of [game] on a 3x3 board that raises has written nothing:
    the stored board is as it was before the call, whatever the data and
    the random draw.  The exception comes from the unpacking of the data
    or from the read of [state[r][c]], which both come before the first
    write. *)
Theorem game_raise_keeps_board rnd data (state : board) e :
  is_3x3 state = true →
  game rnd data state = Raise e →
  game_io rnd data state = (state, Raise e).
Proof.
  intros Hwf Hgame.
  destruct (unpack_move data) as [[r c]|e'] eqn:Hdata.
  - destruct (in_range (r, c)) eqn:Hrc.
    + destruct (game_returns_data rnd r c data state Hwf Hrc Hdata)
        as (? & ? & ? & Hok).
      congruence.
    + pose proof (getitem2_out_of_range state r c Hwf Hrc) as Hget.
      unfold game in Hgame. rewrite Hdata in Hgame. run in Hgame.
      rewrite Hget in Hgame. injection Hgame as <-.
      unfold game_io, reads, mbind, io_bind. by rewrite Hdata, Hget.
  - unfold game in Hgame. rewrite Hdata in Hgame. injection Hgame as <-.
    unfold game_io, reads, mbind, io_bind. by rewrite Hdata.
Qed.

Lemma game_raise_keeps_board_witness :
  game_io 0 "13" empty_board = (empty_board, Raise IndexError).
Proof.
  apply (game_raise_keeps_board 0 "13" empty_board IndexError); reflexivity.
Defined.

(** ** Unpacking the callback data *)

Lemma int_spec (ch : ascii) (n : nat) :
  int_ ch = Ok n ↔ (n ≤ 9)%nat ∧ ch = digit n.
Proof.
  unfold int_, digit. case_decide as Hd; split.
  - intros [= <-]. split; [lia|].
    replace (48 + (nat_of_ascii ch - 48)) with (nat_of_ascii ch) by lia.
    by rewrite ascii_nat_embedding.
  - intros [Hn ->]. rewrite nat_ascii_embedding by lia. f_equal. lia.
  - done.
  - intros [Hn ->]. rewrite nat_ascii_embedding in Hd by lia. lia.
Qed.

Lemma int_digit (n : nat) : (n ≤ 9)%nat → int_ (digit n) = Ok n.
Proof. intros Hn. by apply int_spec. Qed.

Lemma int_raises (ch : ascii) e : int_ ch = Raise e → e = ValueError.
Proof. unfold int_. case_decide; [done|]. by intros [= <-]. Qed.

(** X5: [r, c = map(int, data)] on a string.  Two decimal digits [0] to
    [9] unpack to their values.  Whenever the unpacking succeeds the data
    have exactly two characters and both values are at most 9; data of
    any other length raise [ValueError]; and [ValueError] is the only
    exception. *)
Theorem unpack_move_spec :
  (∀ r c, (r ≤ 9)%nat → (c ≤ 9)%nat →
          unpack_move (String (digit r) (String (digit c) EmptyString)) = Ok (r, c)) ∧
  (∀ data r c, unpack_move data = Ok (r, c) →
               String.length data = 2 ∧ (r ≤ 9)%nat ∧ (c ≤ 9)%nat) ∧
  (∀ data, String.length data ≠ 2 → unpack_move data = Raise ValueError) ∧
  (∀ data e, unpack_move data = Raise e → e = ValueError).
Proof.
  split; [|split; [|split]].
  - intros r c Hr Hc. cbn. by rewrite !int_digit.
  - intros data r c. destruct data as [|a [|b [|x rest]]]; cbn.
    + done.
    + by destruct (int_ a).
    + destruct (int_ a) as [r'|] eqn:Ha; [|done].
      destruct (int_ b) as [c'|] eqn:Hb; [|done]. cbn.
      intros [= <- <-]. apply int_spec in Ha as [? _], Hb as [? _]. done.
    + destruct (int_ a); [|done]. destruct (int_ b); [|done]. cbn.
      by destruct (int_ x).
  - intros data Hlen. destruct data as [|a [|b [|x rest]]]; cbn in *.
    + done.
    + destruct (int_ a) eqn:Ha; cbn; [done|]. f_equal. by eapply int_raises.
    + done.
    + destruct (int_ a) eqn:Ha; cbn; [|f_equal; by eapply int_raises].
      destruct (int_ b) eqn:Hb; cbn; [|f_equal; by eapply int_raises].
      destruct (int_ x) eqn:Hx; cbn; [done|]. f_equal. by eapply int_raises.
  - intros data e. destruct data as [|a [|b [|x rest]]]; cbn.
    + by intros [= <-].
    + destruct (int_ a) eqn:Ha; cbn; [by intros [= <-]|].
      intros [= <-]. by eapply int_raises.
    + destruct (int_ a) eqn:Ha; cbn; [|intros [= <-]; by eapply int_raises].
      destruct (int_ b) eqn:Hb; cbn; [done|intros [= <-]; by eapply int_raises].
    + destruct (int_ a) eqn:Ha; cbn; [|intros [= <-]; by eapply int_raises].
      destruct (int_ b) eqn:Hb; cbn; [|intros [= <-]; by eapply int_raises].
      destruct (int_ x) eqn:Hx; cbn; [by intros [= <-]|].
      intros [= <-]. by eapply int_raises.
Qed.

(** ** More on [won] *)

(** X6: on a 3x3 board, writing a mark over a cell does not change the
    result of [won] for another mark, unless the cell held that mark: the
    opponent's move cannot make or undo a line of the player. *)
Theorem won_place_other (state : board) p old v mark :
  is_3x3 state = true → in_range p = true →
  cell_at state p = Some old → old ≠ mark → v ≠ mark →
  won (place state p v) mark = won state mark.
Proof.
  intros Hwf Hp Hold Ho Hv.
  rewrite !won_total by (done || by apply is_3x3_place).
  f_equal. by eapply has_line_place_other.
Qed.

Lemma won_place_other_witness :
  won (place board_two_in_row (0, 2) ZERO) CROSS = won board_two_in_row CROSS.
Proof.
  apply (won_place_other board_two_in_row (0, 2) FREE_SPACE ZERO CROSS);
    [reflexivity..|discriminate|discriminate].
Defined.

(** X7: whatever the shape of the board, [won] returns true as soon as one
    of its rows holds nothing but the symbol, before any cell is indexed;
    an empty row is such a row for every symbol. *)
Theorem won_complete_row (fields : board) (symbol : string) (row : list string) :
  row ∈ fields → Forall (λ cell, cell = symbol) row →
  won fields symbol = Ok true.
Proof.
  intros Hin Hrow. unfold won.
  assert (any_ (λ row, all_ (λ cell, Ok (cell =? symbol)) row) fields = Ok true)
    as ->; [|done].
  induction Hin as [row fields|row row' fields Hin IH]; cbn.
  - rewrite all_pure.
    assert (forallb (λ cell, cell =? symbol) row = true) as ->; [|done].
    apply forallb_forall. intros x Hx%list_elem_of_In.
    rewrite Forall_forall in Hrow. rewrite (Hrow x Hx). apply String.eqb_refl.
  - rewrite all_pure. cbn.
    destruct (forallb _ row'); [done|]. by apply IH.
Qed.

Lemma won_complete_row_witness : won [[CROSS; ZERO]; []] ZERO = Ok true.
Proof.
  apply (won_complete_row [[CROSS; ZERO]; []] ZERO []);
    [right; left|constructor].
Defined.

(** ** The boards of a game in progress *)

(** A board reached by play is 3x3, it is the player's turn on it, and
    neither side has a line. *)
Lemma reachable_no_line (state : board) :
  reachable state →
  is_3x3 state = true ∧ balanced state = true ∧
  has_line state CROSS = false ∧ has_line state ZERO = false.
Proof.
  induction 1 as [|rnd data state state' acts _ (Hwf & Hbal & HX & HO) Hgame];
    [done|].
  apply game_ok_inv in Hgame as (r & c & _ & Hrc & Hcases); [|done].
  pose proof (is_3x3_place state (r, c) CROSS Hwf) as Hwf1.
  destruct Hcases as [(_ & -> & _)|[(_ & _ & _ & _ & [=])
    |[(_ & _ & _ & _ & _ & [=])
     |(Hf%is_free_spec & Hwin & q & [Hq Hqf]%elem_of_free_list & -> & Hai)]]];
    [done|].
  destruct Hai as [(_ & _ & [=])|(Hai & _)].
  destruct (balanced_round state (r, c) q) as [Hbal' _]; [done..|].
  split; [by apply is_3x3_place|]. split; [done|]. split; [|done].
  by rewrite (has_line_place_other _ q FREE_SPACE).
Qed.

(** X8: every board a session holds while it waits for a move (the board
    of [start], or the board left by a call of [game] that returned
    [CONTINUE_GAME]) is 3x3, holds as many X as O and nothing else but
    EMPTY cells, has no complete line of either side, and has an EMPTY
    cell: the player can always move. *)
Theorem reachable_board_invariant (state : board) :
  reachable state →
  is_3x3 state = true ∧ balanced state = true ∧
  won state CROSS = Ok false ∧ won state ZERO = Ok false ∧
  ∃ p, in_range p = true ∧ cell_at state p = Some FREE_SPACE.
Proof.
  intros (Hwf & Hbal & HX & HO)%reachable_no_line.
  split; [done|]. split; [done|].
  split; [by apply won_false_iff|]. split; [by apply won_false_iff|].
  pose proof (balanced_has_free state Hwf Hbal) as Hne.
  destruct (free_list state) as [|p l] eqn:Hfl; [done|].
  exists p. apply elem_of_free_list. rewrite Hfl. left.
Qed.

Lemma reachable_board_invariant_witness :
  is_3x3 (place (place empty_board (1, 1) CROSS) (1, 0) ZERO) = true ∧
  balanced (place (place empty_board (1, 1) CROSS) (1, 0) ZERO) = true ∧
  won (place (place empty_board (1, 1) CROSS) (1, 0) ZERO) CROSS = Ok false ∧
  won (place (place empty_board (1, 1) CROSS) (1, 0) ZERO) ZERO = Ok false ∧
  ∃ p, in_range p = true ∧
       cell_at (place (place empty_board (1, 1) CROSS) (1, 0) ZERO) p
       = Some FREE_SPACE.
Proof.
  apply (reachable_board_invariant
           (place (place empty_board (1, 1) CROSS) (1, 0) ZERO)).
  eapply (reachable_game 3 "11" get_default_state); [apply reachable_start|].
  vm_compute. reflexivity.
Defined.

(** ** More on the keyboard *)

Lemma generate_keyboard_cells a b c d e f g h i :
  generate_keyboard [[a; b; c]; [d; e; f]; [g; h; i]]
  = Ok [[Button a "00"; Button d "10"; Button g "20"];
        [Button b "01"; Button e "11"; Button h "21"];
        [Button c "02"; Button f "12"; Button i "22"]].
Proof. reflexivity. Qed.

(** X9: the grid on screen is the board mirrored in its main diagonal.
    It is 3x3, its cell [(r, c)] is the cell [(c, r)] of the board, [won]
    gives the same result on it as on the board for every mark, and the
    keyboard of the grid on screen shows the board again. *)
Theorem keyboard_mirrors_board (state : board) :
  is_3x3 state = true →
  ∃ kb,
    generate_keyboard state = Ok kb ∧
    is_3x3 (shown kb) = true ∧
    (∀ r c, cell_at (shown kb) (r, c) = cell_at state (c, r)) ∧
    (∀ mark, won (shown kb) mark = won state mark) ∧
    ∃ kb', generate_keyboard (shown kb) = Ok kb' ∧ shown kb' = state.
Proof.
  intros (a & b & c & d & e & f & g & h & i & ->)%is_3x3_inv.
  eexists. split; [apply generate_keyboard_cells|].
  split; [done|]. split; [|split].
  - intros [|[|[|r]]] [|[|[|c']]]; done.
  - intros mark. cbn [shown fmap list_fmap text]. rewrite !won_3x3.
    f_equal. unfold has_line; cbn.
    destruct (a =? mark), (b =? mark), (c =? mark),
             (d =? mark), (e =? mark), (f =? mark),
             (g =? mark), (h =? mark), (i =? mark); reflexivity.
  - eexists. split; [apply generate_keyboard_cells|done].
Qed.

Lemma keyboard_mirrors_board_witness :
  ∃ kb,
    generate_keyboard board_centre_taken = Ok kb ∧
    is_3x3 (shown kb) = true ∧
    (∀ r c, cell_at (shown kb) (r, c) = cell_at board_centre_taken (c, r)) ∧
    (∀ mark, won (shown kb) mark = won board_centre_taken mark) ∧
    ∃ kb', generate_keyboard (shown kb) = Ok kb' ∧ shown kb' = board_centre_taken.
Proof. apply (keyboard_mirrors_board board_centre_taken). reflexivity. Defined.

(** A move that unpacks to a cell in range is refused exactly when the
    cell is not EMPTY. *)
Lemma game_illegal_iff rnd r c data (state : board) :
  is_3x3 state = true → in_range (r, c) = true →
  unpack_move data = Ok (r, c) →
  ∃ state' acts phase,
    game rnd data state = Ok (state', acts, phase) ∧
    (outcome_of acts = Some ILLEGAL_MOVE ↔ is_free state (r, c) = false).
Proof.
  intros Hwf Hrc Hdata.
  destruct (game_returns_data rnd r c data state Hwf Hrc Hdata)
    as (state' & acts & phase & Hgame).
  exists state', acts, phase. split; [done|].
  apply game_ok_inv in Hgame as (r' & c' & Hdata' & _ & Hcases); [|done].
  rewrite Hdata in Hdata'. injection Hdata' as <- <-.
  destruct Hcases as [(Hf & _ & -> & _)|[(Hf & _ & _ & -> & _)
    |[(Hf & _ & _ & _ & -> & _)|(Hf & _ & q & _ & _ & Hai)]]].
  - done.
  - rewrite Hf. by split.
  - rewrite Hf. by split.
  - rewrite Hf. destruct Hai as [(_ & -> & _)|(_ & -> & _)]; by split.
Qed.

(** X10: on a 3x3 board the nine buttons carry nine different callback
    data, one for each cell, and each of them is accepted by a registered
    pattern.  Pressing a button makes [game] return, and the answer is the
    "occupied" message exactly when the button does not show an EMPTY
    cell. *)
Theorem keyboard_buttons_address_cells (state : board) (kb : keyboard) :
  is_3x3 state = true → generate_keyboard state = Ok kb →
  callback_data <$> concat kb ≡ₚ button_data ∧
  NoDup (callback_data <$> concat kb) ∧
  ∀ b rnd, b ∈ concat kb →
    reaches_game (callback_data b) = true ∧
    ∃ state' acts phase,
      game rnd (callback_data b) state = Ok (state', acts, phase) ∧
      (outcome_of acts = Some ILLEGAL_MOVE ↔ text b ≠ FREE_SPACE).
Proof.
  intros Hwf Hkb. pose proof Hwf as Hwf'.
  apply is_3x3_inv in Hwf as (a & b & c & d & e & f & g & h & i & ->).
  rewrite generate_keyboard_cells in Hkb. injection Hkb as <-.
  split; [by apply (bool_decide_unpack _)|].
  split; [by apply (bool_decide_unpack _)|].
  intros btn rnd Hin. cbn in Hin.
  repeat (apply elem_of_cons in Hin as [->|Hin];
    [split; [reflexivity|];
     match goal with
     | |- context [game rnd (callback_data (Button ?x ?data)) ?st] =>
         let p := eval vm_compute in (unpack_move data) in
         match p with
         | Ok (?r, ?c) =>
             destruct (game_illegal_iff rnd r c data st Hwf' eq_refl eq_refl)
               as (state' & acts & phase & Hgame & Hiff);
             exists state', acts, phase; split; [exact Hgame|];
             rewrite Hiff; unfold is_free; cbn;
             by rewrite String.eqb_neq
         end
     end|]).
  by apply elem_of_nil in Hin.
Qed.

Lemma keyboard_buttons_address_cells_witness :
  callback_data <$> concat
    [[Button CROSS "00"; Button FREE_SPACE "10"; Button FREE_SPACE "20"];
     [Button ZERO "01"; Button ZERO "11"; Button FREE_SPACE "21"];
     [Button FREE_SPACE "02"; Button FREE_SPACE "12"; Button CROSS "22"]]
    ≡ₚ button_data ∧
  NoDup (callback_data <$> concat
    [[Button CROSS "00"; Button FREE_SPACE "10"; Button FREE_SPACE "20"];
     [Button ZERO "01"; Button ZERO "11"; Button FREE_SPACE "21"];
     [Button FREE_SPACE "02"; Button FREE_SPACE "12"; Button CROSS "22"]]) ∧
  ∀ b rnd, b ∈ concat
    [[Button CROSS "00"; Button FREE_SPACE "10"; Button FREE_SPACE "20"];
     [Button ZERO "01"; Button ZERO "11"; Button FREE_SPACE "21"];
     [Button FREE_SPACE "02"; Button FREE_SPACE "12"; Button CROSS "22"]] →
    reaches_game (callback_data b) = true ∧
    ∃ state' acts phase,
      game rnd (callback_data b) board_centre_taken = Ok (state', acts, phase) ∧
      (outcome_of acts = Some ILLEGAL_MOVE ↔ text b ≠ FREE_SPACE).
Proof.
  apply (keyboard_buttons_address_cells board_centre_taken); reflexivity.
Defined.

(** ** The registered patterns *)

Lemma button_data_in_range (d : string) :
  d ∈ button_data ↔ ∃ p, in_range p = true ∧ d = fmt_rc p.1 p.2.
Proof.
  unfold button_data. rewrite list_elem_of_fmap. split.
  - intros (p & -> & Hp). exists p. split; [by apply all_cells_in_range|done].
  - intros (p & Hp & ->). exists p. split; [done|by apply in_range_cases].
Qed.

(** X11: the patterns registered for the buttons accept the nine callback
    data of the buttons, each of them followed by one line feed, and
    nothing else. *)
Theorem registered_patterns_accept (data : string) :
  reaches_game data = true ↔
  data ∈ button_data ∨ ∃ d, d ∈ button_data ∧ data = d +:+ nl.
Proof.
  rewrite reaches_game_iff. split.
  - intros (p & Hp & [-> | ->]).
    + left. apply button_data_in_range. by exists p.
    + right. eexists. split; [|done]. apply button_data_in_range. by exists p.
  - intros [(p & Hp & ->)%button_data_in_range
           |(d & (p & Hp & ->)%button_data_in_range & ->)];
      exists p; (split; [done|]); first [by left | by right].
Qed.

(** ** Sessions in the store *)

(** X12: in every store the handlers can reach, a write [state[r][c] = v]
    to the board of a session does to that board what the state-passing
    [setitem2] does (and raises when it raises), and leaves
    [DEFAULT_STATE] and the board of every other session as they were. *)
Theorem store_sessions_isolated (w : Store.world) y (b : board) r c v :
  Store.reachable w → y ∈ Store.sessions w →
  Store.read_board (Store.store w) y = Some b →
  match setitem2 b r c v with
  | Ok b' =>
      ∃ h, Store.setitem2 (Store.store w) y r c v = Some h ∧
           Store.read_board h y = Some b' ∧
           Store.read_board h Store.DEFAULT_STATE = Some empty_board ∧
           ∀ y', y' ∈ Store.sessions w → y' ≠ y →
                 Store.read_board h y' = Store.read_board (Store.store w) y'
  | Raise _ => Store.setitem2 (Store.store w) y r c v = None
  end.
Proof.
  intros Hreach Hy Hread.
  pose proof (store_reachable_inv w Hreach) as (Hd & _ & Hs).
  destruct (Hs y Hy) as (Hne & (k & ->) & _ & b0 & Hb).
  rewrite (store_holds_read _ _ _ Hb) in Hread. injection Hread as ->.
  pose proof Hb as (? & ? & ? & _ & Hwf & _).
  rewrite store_default_state_addr in *.
  destruct (in_range (r, c)) eqn:Hrc.
  - rewrite setitem2_3x3 by done.
    destruct (store_setitem2_holds _ _ _ r c v Hb Hrc)
      as (h & Hset & _ & Hnew & Hfar).
    exists h. split; [done|]. split; [by apply store_holds_read|].
    split; [apply store_holds_read, Hfar; [lia|done]|].
    intros y' Hy' Hne'.
    destruct (Hs y' Hy') as (_ & (k' & ->) & _ & b' & Hb').
    rewrite (store_holds_read _ _ _ Hb').
    apply store_holds_read, Hfar; [lia|done].
  - rewrite setitem2_out_of_range by done.
    destruct (Store.setitem2 (Store.store w) (4 * k) r c v) as [h|] eqn:Hset;
      [|done].
    pose proof (store_setitem2_in_range _ _ _ _ _ _ _ Hb Hset). congruence.
Qed.

Lemma store_sessions_isolated_witness :
  match setitem2 (place empty_board (1, 1) CROSS) 0 2 ZERO with
  | Ok b' =>
      ∃ h, Store.setitem2 (Store.store Store.after_one_move) 4 0 2 ZERO = Some h ∧
           Store.read_board h 4 = Some b' ∧
           Store.read_board h Store.DEFAULT_STATE = Some empty_board ∧
           ∀ y', y' ∈ Store.sessions Store.after_one_move → y' ≠ 4 →
                 Store.read_board h y'
                 = Store.read_board (Store.store Store.after_one_move) y'
  | Raise _ =>
      Store.setitem2 (Store.store Store.after_one_move) 4 0 2 ZERO = None
  end.
Proof.
  apply (store_sessions_isolated Store.after_one_move 4
           (place empty_board (1, 1) CROSS) 0 2 ZERO);
    [apply store_after_one_move_reachable|by left|reflexivity].
Defined.

(** ** The conversation *)

Lemma update_cases (u : update) :
  (∃ n, u = Command n) ∨ (∀ n, u ≠ Command n).
Proof. destruct u as [n| |]; [left; by exists n|by right..]. Qed.

Lemma find_callback_handlers f (u : update) (ps : list string) :
  handler_callback <$>
    List.find (λ h, check_update h u) (CallbackQueryHandler f <$> ps)
  = if existsb (λ p, check_update (CallbackQueryHandler f p) u) ps
    then Some f else None.
Proof.
  induction ps as [|p ps IH]; [done|]. cbn [fmap list_fmap List.find existsb].
  destruct (check_update (CallbackQueryHandler f p) u); [done|apply IH].
Qed.

Lemma takes_query_patterns f (u : update) :
  existsb (λ p, check_update (CallbackQueryHandler f p) u) patterns
  = takes_query u.
Proof. by destruct u as [n|[|a data]|]. Qed.

Lemma find_callback_handlers_command f n (ps : list string) :
  List.find (λ h, check_update h (Command n)) (CallbackQueryHandler f <$> ps) = None.
Proof. induction ps as [|p ps IH]; [done|]. apply IH. Qed.

Lemma select_command st n :
  select (Some st) (Command n)
  = if n =? "stop" then Some (CommandHandler "stop" cb_stop)
    else if n =? "start" then Some (CommandHandler "start" cb_start)
    else None.
Proof.
  unfold select, states.
  repeat case_decide; rewrite ?find_callback_handlers_command; reflexivity.
Qed.

Lemma select_query st (u : update) :
  (∀ n, u ≠ Command n) →
  handler_callback <$> select (Some st) u
  = if takes_query u then
      if decide (st = CONTINUE_GAME) then Some cb_game
      else if decide (st = FINISH_GAME) then Some cb_end
      else None
    else None.
Proof.
  intros Hu.
  assert (List.find (λ h, check_update h u) fallbacks = None) as Hfb.
  { destruct u as [n| |]; [by destruct (Hu n)|done..]. }
  unfold select, states. repeat case_decide.
  - pose proof (find_callback_handlers cb_game u patterns) as Hfind.
    rewrite takes_query_patterns in Hfind.
    destruct (List.find _ (CallbackQueryHandler cb_game <$> patterns)); [done|].
    rewrite Hfb. by destruct (takes_query u).
  - pose proof (find_callback_handlers cb_end u patterns) as Hfind.
    rewrite takes_query_patterns in Hfind.
    destruct (List.find _ (CallbackQueryHandler cb_end <$> patterns)); [done|].
    rewrite Hfb. by destruct (takes_query u).
  - cbn [List.find]. rewrite Hfb. by destruct (takes_query u).
Qed.

Lemma step_selected rnd (s : session) (u : update) :
  step rnd s u
  = match handler_callback <$> select (conversation s) u with
    | None => Done (s, [])
    | Some f =>
        match call rnd f u (keyboard_state s) with
        | Done (kb, acts, new_state) =>
            Done (Session (if decide (new_state = END) then None
                           else Some new_state) kb, acts)
        | Failed e => Failed e
        | Hangs kb acts => Hangs kb acts
        end
    end.
Proof. unfold step. by destruct (select (conversation s) u). Qed.

Lemma reachable_not_over (b : board) : reachable b → game_over b = false.
Proof.
  intros (Hwf & Hbal & HX & HO)%reachable_no_line.
  unfold game_over. rewrite HX, HO.
  pose proof (balanced_has_free b Hwf Hbal). by destruct (free_list b).
Qed.

Lemma game_finish_over rnd data (state state' : board) acts :
  is_3x3 state = true →
  game rnd data state = Ok (state', acts, FINISH_GAME) →
  is_3x3 state' = true ∧ game_over state' = true.
Proof.
  intros Hwf Hgame.
  apply game_ok_inv in Hgame as (r & c & _ & Hrc & Hcases); [|done].
  pose proof (is_3x3_place state (r, c) CROSS Hwf) as Hwf1.
  unfold game_over.
  destruct Hcases as [(_ & _ & _ & [=])|[(_ & Hwin & -> & _)
    |[(_ & _ & Hnil & -> & _)|(_ & _ & q & _ & -> & Hai)]]].
  - by rewrite Hwin.
  - rewrite Hnil. by rewrite !orb_true_r.
  - split; [by apply is_3x3_place|].
    destruct Hai as [(-> & _)|(_ & _ & [=])]. by rewrite orb_true_r.
Qed.

Lemma game_phase_cases rnd data (state state' : board) acts phase :
  is_3x3 state = true →
  game rnd data state = Ok (state', acts, phase) →
  phase = CONTINUE_GAME ∨ phase = FINISH_GAME.
Proof.
  intros Hwf Hgame.
  apply game_ok_inv in Hgame as (r & c & _ & _ & Hcases); [|done].
  destruct Hcases as [(_ & _ & _ & ->)|[(_ & _ & _ & _ & ->)
    |[(_ & _ & _ & _ & _ & ->)|(_ & _ & q & _ & _ & [(_ & _ & ->)|(_ & _ & ->)])]]];
    first [by left | by right].
Qed.

Lemma start_returns (kb : option board) :
  start kb
  = Ok (Some get_default_state,
        [reply_text MSG_TURN
           (Some ((λ c, (λ r, button_at get_default_state r c) <$> range 3)
                    <$> range 3))],
        CONTINUE_GAME).
Proof. reflexivity. Qed.

Lemma step_start rnd (s : session) :
  step rnd s (Command "start")
  = Done (Session (Some CONTINUE_GAME) (Some get_default_state),
          [reply_text MSG_TURN
             (Some ((λ c, (λ r, button_at get_default_state r c) <$> range 3)
                      <$> range 3))]).
Proof.
  unfold step. destruct (conversation s) as [st|].
  - rewrite select_command. reflexivity.
  - reflexivity.
Qed.

(** Inside a conversation [/stop] runs [stop], which hangs. *)
Lemma step_stop rnd (s : session) st :
  conversation s = Some st →
  step rnd s (Command "stop")
  = Hangs (Some get_default_state) [reply_text MSG_STOP None; application_stop].
Proof. intros Hst. unfold step. rewrite Hst, select_command. reflexivity. Qed.

Lemma step_other_command rnd (s : session) n :
  n ≠ "start" → (conversation s = None ∨ n ≠ "stop") →
  step rnd s (Command n) = Done (s, []).
Proof.
  intros Hstart%String.eqb_neq Hstop. unfold step.
  destruct (conversation s) as [st|].
  - destruct Hstop as [|Hstop%String.eqb_neq]; [done|].
    by rewrite select_command, Hstop, Hstart.
  - cbn. by rewrite Hstart.
Qed.

Lemma step_query_ignored rnd (s : session) (u : update) :
  (∀ n, u ≠ Command n) →
  conversation s = None ∨ takes_query u = false →
  step rnd s u = Done (s, []).
Proof.
  intros Hu H. rewrite step_selected. destruct (conversation s) as [st|].
  - destruct H as [|H]; [done|]. by rewrite select_query, H.
  - destruct u as [n| |]; [by destruct (Hu n)|done..].
Qed.

Lemma takes_query_not_command (u : update) :
  takes_query u = true → ∀ n, u ≠ Command n.
Proof. by destruct u. Qed.

Lemma step_end rnd (s : session) (u : update) :
  conversation s = Some FINISH_GAME → takes_query u = true →
  step rnd s u = Done (Session None (Some get_default_state), []).
Proof.
  intros Hst Hr.
  rewrite step_selected, Hst, select_query, Hr
    by by apply takes_query_not_command.
  reflexivity.
Qed.

Lemma step_game rnd (s : session) data (b : board) :
  conversation s = Some CONTINUE_GAME → keyboard_state s = Some b →
  takes_query (CallbackQuery data) = true →
  step rnd s (CallbackQuery data)
  = match game rnd data b with
    | Ok (state', acts, new_state) =>
        Done (Session (if decide (new_state = END) then None else Some new_state)
                      (Some state'), acts)
    | Raise e => Failed (Exn e)
    end.
Proof.
  intros Hst Hkb Hr. rewrite step_selected, Hst, select_query, Hr, Hkb by done.
  rewrite decide_True by done. cbn [call].
  by destruct (game rnd data b) as [[[state' acts] new_state]|].
Qed.

(** While the game goes on, a query without data makes [game] raise. *)
Lemma step_game_no_data rnd (s : session) :
  conversation s = Some CONTINUE_GAME →
  step rnd s CallbackQueryNoData = Failed TypeError.
Proof.
  intros Hst. rewrite step_selected, Hst, select_query by done. reflexivity.
Qed.

(** The data a handler for the buttons takes: none at all, or those of a
    button, with or without a line feed after them. *)
Lemma takes_query_data (data : string) :
  takes_query (CallbackQuery data) = true ↔
  data = EmptyString ∨ reaches_game data = true.
Proof.
  destruct data as [|a data]; cbn [takes_query].
  - split; [by left|done].
  - split; [by right|]. by intros [[=]|?].
Qed.

(** One update keeps what holds of a session. *)
Lemma step_session_ok rnd (s s' : session) u acts :
  session_ok s → step rnd s u = Done (s', acts) → session_ok s'.
Proof.
  intros Hok Hstep.
  assert (session_ok (Session (Some CONTINUE_GAME) (Some get_default_state)))
    as Hfresh.
  { exists get_default_state. split; [done|]. left. split; [done|].
    apply reachable_start. }
  destruct (update_cases u) as [[n ->]|Hq].
  { destruct (decide (n = "start")) as [->|Hstart].
    { rewrite step_start in Hstep. by injection Hstep as <- _. }
    destruct (conversation s) as [st|] eqn:Hst.
    + destruct (decide (n = "stop")) as [->|Hstop].
      { by rewrite (step_stop _ _ st) in Hstep. }
      rewrite step_other_command in Hstep by auto. by injection Hstep as <- _.
    + rewrite step_other_command in Hstep by auto. by injection Hstep as <- _. }
  destruct (takes_query u) eqn:Hr.
  2: { rewrite step_query_ignored in Hstep by auto.
       by injection Hstep as <- _. }
  destruct (conversation s) as [st|] eqn:Hst.
  2: { rewrite step_query_ignored in Hstep by auto.
       by injection Hstep as <- _. }
  unfold session_ok in Hok. rewrite Hst in Hok.
  destruct Hok as (b & Hkb & [[-> Hreach]|(-> & Hwf & Hover)]).
  - destruct u as [n|data|]; [by destruct (Hq n)| |].
    2: { by rewrite step_game_no_data in Hstep. }
    rewrite (step_game _ _ _ b) in Hstep by done.
    destruct (game rnd data b) as [[[state' acts'] new_state]|] eqn:Hgame;
      [|done].
    injection Hstep as <- _.
    pose proof (reachable_balanced b Hreach) as [Hwf _].
    destruct (game_phase_cases _ _ _ _ _ _ Hwf Hgame) as [-> | ->].
    + exists state'. split; [done|]. left. split; [done|].
      by eapply reachable_game.
    + exists state'. split; [done|]. right. split; [done|].
      by eapply game_finish_over.
  - rewrite step_end in Hstep by done. by injection Hstep as <- _.
Qed.

Lemma steps_session_ok (s s' : session) us :
  session_ok s → steps s us = Done s' → session_ok s'.
Proof.
  revert s. induction us as [|[rnd u] us IH]; intros s Hok Hsteps.
  - by injection Hsteps as <-.
  - cbn in Hsteps.
    destruct (step rnd s u) as [[s1 acts]| |] eqn:Hstep; [|done..].
    eapply IH; [|done]. by eapply step_session_ok.
Qed.

Lemma unpack_move_line_feed (p : nat * nat) :
  in_range p = true →
  unpack_move (fmt_rc p.1 p.2 +:+ nl) = Raise ValueError.
Proof.
  intros Hp%in_range_cases. unfold all_cells in Hp.
  repeat (apply elem_of_cons in Hp as [->|Hp]; [reflexivity|]).
  by apply elem_of_nil in Hp.
Qed.

(** X13: [/start] begins a new game whatever the session is doing: as
    entry point outside a conversation and as fallback inside one, also in
    the middle of a game, it stores an empty board, sends the keyboard of
    nine EMPTY buttons and puts the conversation in [CONTINUE_GAME]. *)
Theorem start_begins_new_game rnd (s : session) :
  ∃ kb,
    step rnd s (Command "start")
    = Done (Session (Some CONTINUE_GAME) (Some empty_board),
            [reply_text MSG_TURN (Some kb)]) ∧
    shown kb = empty_board.
Proof. eexists. split; [apply step_start|reflexivity]. Qed.

(** X14: after any run of updates from a new session in which every
    callback returned (none raised, and [stop], which hangs, did not run),
    a session that is in a conversation holds a 3x3 board, and the state
    of the conversation tells whether the game on it is over: in
    [CONTINUE_GAME] no line is complete, an EMPTY cell is left and it is
    the player's turn; in [FINISH_GAME] a line is complete or the board is
    full.  The conversation is in no other state. *)
Theorem session_invariant (us : list (nat * update)) (s : session) :
  steps new_session us = Done s →
  match conversation s with
  | None => True
  | Some state =>
      ∃ b, keyboard_state s = Some b ∧ is_3x3 b = true ∧
           ((state = CONTINUE_GAME ∧ game_over b = false ∧ balanced b = true)
            ∨ (state = FINISH_GAME ∧ game_over b = true))
  end.
Proof.
  intros Hsteps.
  assert (session_ok s) as Hok by by eapply (steps_session_ok new_session).
  unfold session_ok in Hok. destruct (conversation s) as [st|]; [|done].
  destruct Hok as (b & Hkb & [[-> Hreach]|(-> & Hwf & Hover)]).
  - exists b. split; [done|].
    pose proof (reachable_balanced b Hreach) as [Hwf Hbal].
    split; [done|]. left. split; [done|]. split; [|done].
    by apply reachable_not_over.
  - exists b. split; [done|]. split; [done|]. by right.
Qed.

Lemma session_invariant_witness :
  match conversation sample_session with
  | None => True
  | Some state =>
      ∃ b, keyboard_state sample_session = Some b ∧ is_3x3 b = true ∧
           ((state = CONTINUE_GAME ∧ game_over b = false ∧ balanced b = true)
            ∨ (state = FINISH_GAME ∧ game_over b = true))
  end.
Proof. apply (session_invariant sample_run sample_session). reflexivity. Defined.

(** X15: after a run of updates from a new session in which every callback
    returned, the next update makes a callback raise exactly when the game
    is going on and the update is a callback query with missing data
    ([TypeError] from [map(int, None)]), with empty data, or with the data
    of a button followed by a line feed ([ValueError] from the unpacking).
    No command and no press of a button makes a callback raise, and
    [user_data['keyboard_state']] is never missing when [game] reads
    it. *)
Theorem session_step_fails_iff (us : list (nat * update)) (s : session)
    rnd (u : update) (e : raised) :
  steps new_session us = Done s →
  step rnd s u = Failed e ↔
  conversation s = Some CONTINUE_GAME ∧
  ((u = CallbackQueryNoData ∧ e = TypeError) ∨
   (u = CallbackQuery EmptyString ∧ e = Exn ValueError) ∨
   (∃ d, d ∈ button_data ∧ u = CallbackQuery (d +:+ nl) ∧ e = Exn ValueError)).
Proof.
  intros Hsteps.
  assert (session_ok s) as Hok by by eapply (steps_session_ok new_session).
  split.
  - intros Hstep. destruct (update_cases u) as [[n ->]|Hq].
    { destruct (decide (n = "start")) as [->|Hstart];
        [by rewrite step_start in Hstep|].
      destruct (conversation s) as [st|] eqn:Hst.
      - destruct (decide (n = "stop")) as [->|Hstop];
          [by rewrite (step_stop _ _ st) in Hstep|].
        by rewrite step_other_command in Hstep by auto.
      - by rewrite step_other_command in Hstep by auto. }
      destruct (takes_query u) eqn:Hr;
      [|by rewrite step_query_ignored in Hstep by auto].
    destruct (conversation s) as [st|] eqn:Hst;
      [|by rewrite step_query_ignored in Hstep by auto].
    unfold session_ok in Hok. rewrite Hst in Hok.
    destruct Hok as (b & Hkb & [[-> Hreach]|(-> & Hwf & Hover)]);
      [|by rewrite step_end in Hstep].
    split; [done|].
    destruct u as [n|data|]; [by destruct (Hq n)| |].
    2: { rewrite step_game_no_data in Hstep by done.
         injection Hstep as <-. by left. }
    rewrite (step_game _ _ _ b) in Hstep by done.
    pose proof (reachable_balanced b Hreach) as [Hwf _].
    apply takes_query_data in Hr as [-> | Hr].
    { injection Hstep as <-. right. by left. }
    apply reaches_game_iff in Hr as ([r c] & Hp & [-> | ->]).
    + destruct (game_returns rnd r c b Hwf Hp) as (? & ? & ? & Hgame).
      cbn [fst snd] in Hstep. by rewrite Hgame in Hstep.
    + right. right.
      exists (fmt_rc r c). split; [apply button_data_in_range; by exists (r, c)|].
      split; [done|].
      unfold game in Hstep. rewrite (unpack_move_line_feed (r, c) Hp) in Hstep.
      by injection Hstep as <-.
  - intros (Hst & Hcases).
    unfold session_ok in Hok. rewrite Hst in Hok.
    destruct Hok as (b & Hkb & _).
    destruct Hcases as [(-> & ->)|[(-> & ->)
      |(d & (p & Hp & ->)%button_data_in_range & -> & ->)]].
    + by apply step_game_no_data.
    + by rewrite (step_game _ _ _ b).
    + rewrite (step_game _ _ _ b); [|done..|].
      * unfold game. by rewrite (unpack_move_line_feed p Hp).
      * apply takes_query_data. right.
        apply reaches_game_iff. exists p. split; [done|by right].
Qed.

Lemma session_step_fails_iff_witness :
  step 0 sample_session (CallbackQuery ("11" +:+ nl)) = Failed (Exn ValueError) ↔
  conversation sample_session = Some CONTINUE_GAME ∧
  ((CallbackQuery ("11" +:+ nl) = CallbackQueryNoData ∧
    Exn ValueError = TypeError) ∨
   (CallbackQuery ("11" +:+ nl) = CallbackQuery EmptyString ∧
    Exn ValueError = Exn ValueError) ∨
   (∃ d, d ∈ button_data ∧
         CallbackQuery ("11" +:+ nl) = CallbackQuery (d +:+ nl) ∧
         Exn ValueError = Exn ValueError)).
Proof.
  apply (session_step_fails_iff sample_run sample_session 0
           (CallbackQuery ("11" +:+ nl)) (Exn ValueError)).
  reflexivity.
Defined.



(** X17: outside a conversation (before the first [/start], after a
    finished game was closed) every update but [/start] is ignored: no
    callback runs, nothing is sent, the session is as it was. *)
Theorem idle_session_ignores rnd (s : session) (u : update) :
  conversation s = None → u ≠ Command "start" →
  step rnd s u = Done (s, []).
Proof.
  intros Hst Hu. destruct u as [n|data|].
  - apply step_other_command; [congruence|by left].
  - apply step_query_ignored; [done|by left].
  - apply step_query_ignored; [done|by left].
Qed.

Lemma idle_session_ignores_witness :
  step 1 new_session (CallbackQuery "11") = Done (new_session, []).
Proof.
  apply (idle_session_ignores 1 new_session (CallbackQuery "11"));
    [reflexivity|discriminate].
Defined.
